(** * cli-oauth: the OAuth authorization-code flow of the command-line client

    A shallow embedding of [packages/cli/src]: the provider metadata
    resolver ([openid-discovery.ts]), the login flow ([oauth.ts]:
    [startOAuthFlow], [buildAuthorizationUrl], [generateCodeChallenge],
    [waitForCallback], [exchangeCodeForToken]) and the token store
    ([auth-storage.ts]).

    Conventions of the embedding:
    - a JavaScript string is a [string] (its UTF-8 bytes); a [Uint8Array] or
      [Buffer] is a [list byte];
    - asynchronous functions are computations in the monad [M], which
      threads the process state [World], reads the behaviour of everything
      outside the process from [Env], and either returns or throws;
    - everything observable is appended to [trace], in program order. *)

From Stdlib Require Import ZArith NArith List Ascii String Bool Lia.
From Stdlib.Strings Require Import Byte.
From stdpp Require Import gmap strings pretty.

Set Warnings "-register-all".
Local Open Scope Z_scope.

(** ** Byte and text encodings of the platform *)

Module Encoding.

Definition string_of_bytes (bs : list byte) : string :=
  string_of_list_ascii (map ascii_of_byte bs).

Definition bytes_of_string (s : string) : list byte :=
  map byte_of_ascii (list_ascii_of_string s).

(** [new TextEncoder().encode(s)] *)
Definition TextEncoder_encode (s : string) : list byte := bytes_of_string s.

(** [String.fromCharCode(...bytes)]: one character per byte. *)
Definition String_fromCharCode (bs : list byte) : string := string_of_bytes bs.

Definition char_at (alphabet : string) (i : N) : ascii :=
  match String.get (N.to_nat i) alphabet with
  | Some c => c
  | None => "?"%char
  end.

Definition hex_alphabet : string := "0123456789abcdef".

Definition hex_of_byte (b : byte) : string :=
  let n := Byte.to_N b in
  String (char_at hex_alphabet (n / 16)%N)
    (String (char_at hex_alphabet (n mod 16)%N) EmptyString).

(** [buf.toString('hex')] *)
Fixpoint toString_hex (bs : list byte) : string :=
  match bs with
  | [] => EmptyString
  | b :: rest => hex_of_byte b +:+ toString_hex rest
  end.

Definition std_alphabet : string :=
  "ABCDEFGHIJKLMNOPQRSTUVWXYZabcdefghijklmnopqrstuvwxyz0123456789+/".

Definition url_alphabet : string :=
  "ABCDEFGHIJKLMNOPQRSTUVWXYZabcdefghijklmnopqrstuvwxyz0123456789-_".

(** The [k]-th six-bit group (from the top) of a 24-bit quantum. *)
Definition sextet (alphabet : string) (quantum : N) (k : N) : ascii :=
  char_at alphabet ((quantum / 64 ^ (3 - k)) mod 64)%N.

Definition quantum (a b c : byte) : N :=
  (Byte.to_N a * 65536 + Byte.to_N b * 256 + Byte.to_N c)%N.

(** RFC 4648 encoding over [alphabet]; a short final group is completed
    with ['='] when [pad] is set and left short otherwise. *)
Fixpoint base64 (alphabet : string) (pad : bool) (bs : list byte) : string :=
  match bs with
  | [] => EmptyString
  | [a] =>
      let q := quantum a x00 x00 in
      String (sextet alphabet q 0) (String (sextet alphabet q 1)
        (if pad then "==" else EmptyString))
  | [a; b] =>
      let q := quantum a b x00 in
      String (sextet alphabet q 0) (String (sextet alphabet q 1)
        (String (sextet alphabet q 2)
          (if pad then "=" else EmptyString)))
  | a :: b :: c :: rest =>
      let q := quantum a b c in
      String (sextet alphabet q 0) (String (sextet alphabet q 1)
        (String (sextet alphabet q 2) (String (sextet alphabet q 3)
          (base64 alphabet pad rest))))
  end.

(** [btoa(s)] of a binary string. *)
Definition btoa (s : string) : string :=
  base64 std_alphabet true (bytes_of_string s).

(** [buf.toString('base64url')]: URL-safe alphabet, no padding. *)
Definition toString_base64url (bs : list byte) : string :=
  base64 url_alphabet false bs.

(** [s.replace(/c/g, d)] for a single character [c]. *)
Fixpoint replace_char (c d : ascii) (s : string) : string :=
  match s with
  | EmptyString => EmptyString
  | String x rest =>
      String (if Ascii.eqb x c then d else x) (replace_char c d rest)
  end.

(** [s.replace(/c/g, '')] for a single character [c]. *)
Fixpoint remove_char (c : ascii) (s : string) : string :=
  match s with
  | EmptyString => EmptyString
  | String x rest =>
      if Ascii.eqb x c then remove_char c rest
      else String x (remove_char c rest)
  end.

(** [s.includes(t)] *)
Fixpoint includes (s t : string) : bool :=
  String.prefix t s ||
  match s with
  | EmptyString => false
  | String _ rest => includes rest t
  end.

End Encoding.

(** ** SHA-256 (FIPS 180-4), the digest behind [crypto.subtle.digest] *)

Module SHA256.
Local Open Scope N_scope.

Definition wrap (x : N) : N := x mod 2 ^ 32.
Definition add (x y : N) : N := wrap (x + y).
Definition rotr (n x : N) : N :=
  N.lor (N.shiftr x n) (wrap (N.shiftl x (32 - n))).
Definition shr (n x : N) : N := N.shiftr x n.
Definition compl (x : N) : N := N.lxor x (2 ^ 32 - 1).

Definition Ch (x y z : N) : N := N.lxor (N.land x y) (N.land (compl x) z).
Definition Maj (x y z : N) : N :=
  N.lxor (N.lxor (N.land x y) (N.land x z)) (N.land y z).
Definition bigsig0 (x : N) : N := N.lxor (N.lxor (rotr 2 x) (rotr 13 x)) (rotr 22 x).
Definition bigsig1 (x : N) : N := N.lxor (N.lxor (rotr 6 x) (rotr 11 x)) (rotr 25 x).
Definition smallsig0 (x : N) : N := N.lxor (N.lxor (rotr 7 x) (rotr 18 x)) (shr 3 x).
Definition smallsig1 (x : N) : N := N.lxor (N.lxor (rotr 17 x) (rotr 19 x)) (shr 10 x).

Definition hex_value (c : ascii) : N :=
  let n := N_of_ascii c in
  if (48 <=? n) && (n <=? 57) then n - 48
  else if (97 <=? n) && (n <=? 102) then n - 87
  else 0.

Fixpoint N_of_hex (acc : N) (s : string) : N :=
  match s with
  | EmptyString => acc
  | String c rest => N_of_hex (acc * 16 + hex_value c) rest
  end.

(** The [count] 32-bit words written in hexadecimal in [s], in order. *)
Definition words_of_hex (count : nat) (s : string) : list N :=
  let big := N_of_hex 0 s in
  map (fun i => wrap (N.shiftr big (32 * N.of_nat (count - 1 - i))))
      (seq 0 count).

(** Round constants: fractional parts of the cube roots of the first 64
    primes. *)
Definition round_constants : list N := Eval vm_compute in
  words_of_hex 64
    ("428a2f9871374491b5c0fbcfe9b5dba53956c25b59f111f1923f82a4ab1c5ed5" +:+
     "d807aa9812835b01243185be550c7dc372be5d7480deb1fe9bdc06a7c19bf174" +:+
     "e49b69c1efbe47860fc19dc6240ca1cc2de92c6f4a7484aa5cb0a9dc76f988da" +:+
     "983e5152a831c66db00327c8bf597fc7c6e00bf3d5a7914706ca635114292967" +:+
     "27b70a852e1b21384d2c6dfc53380d13650a7354766a0abb81c2c92e92722c85" +:+
     "a2bfe8a1a81a664bc24b8b70c76c51a3d192e819d6990624f40e3585106aa070" +:+
     "19a4c1161e376c082748774c34b0bcb5391c0cb34ed8aa4a5b9cca4f682e6ff3" +:+
     "748f82ee78a5636f84c878148cc7020890befffaa4506cebbef9a3f7c67178f2").

(** Initial hash value: fractional parts of the square roots of the first
    8 primes. *)
Definition initial_hash : list N := Eval vm_compute in
  words_of_hex 8
    "6a09e667bb67ae853c6ef372a54ff53a510e527f9b05688c1f83d9ab5be0cd19".

Definition be_bytes (width : nat) (x : N) : list N :=
  map (fun i => (N.shiftr x (8 * N.of_nat (width - 1 - i))) mod 256)
      (seq 0 width).

(** Padding: a 1 bit, zeros up to 56 mod 64 bytes, the bit length on 8
    bytes. *)
Definition pad (msg : list N) : list N :=
  let len := N.of_nat (length msg) in
  let zeros := N.to_nat ((64 - (len + 9) mod 64) mod 64) in
  msg ++ 128 :: repeat 0 zeros ++ be_bytes 8 (8 * len).

Fixpoint be_words (bs : list N) : list N :=
  match bs with
  | a :: b :: c :: d :: rest =>
      (a * 16777216 + b * 65536 + c * 256 + d) :: be_words rest
  | _ => []
  end.

(** The message schedule, most recent word first. *)
Fixpoint schedule (steps : nat) (rev_w : list N) : list N :=
  match steps with
  | O => rev_w
  | S n =>
      let at_ k := nth k rev_w 0 in
      let next :=
        add (add (smallsig1 (at_ 1%nat)) (at_ 6%nat))
            (add (smallsig0 (at_ 14%nat)) (at_ 15%nat)) in
      schedule n (next :: rev_w)
  end.

Record regs := Regs { ra : N; rb : N; rc : N; rd : N;
                      re : N; rf : N; rg : N; rh : N }.

Definition round (s : regs) (kw : N * N) : regs :=
  let t1 := add (add (add (rh s) (bigsig1 (re s))) (Ch (re s) (rf s) (rg s)))
                (add (fst kw) (snd kw)) in
  let t2 := add (bigsig0 (ra s)) (Maj (ra s) (rb s) (rc s)) in
  Regs (add t1 t2) (ra s) (rb s) (rc s) (add (rd s) t1) (re s) (rf s) (rg s).

Definition regs_of (h : list N) : regs :=
  let at_ k := nth k h 0 in
  Regs (at_ 0%nat) (at_ 1%nat) (at_ 2%nat) (at_ 3%nat)
       (at_ 4%nat) (at_ 5%nat) (at_ 6%nat) (at_ 7%nat).

Definition list_of (s : regs) : list N :=
  [ra s; rb s; rc s; rd s; re s; rf s; rg s; rh s].

Definition compress (h : list N) (block : list N) : list N :=
  let w := rev (schedule 48 (rev (be_words block))) in
  let s := fold_left round (combine round_constants w) (regs_of h) in
  map (fun p => add (fst p) (snd p)) (combine h (list_of s)).

Fixpoint blocks (count : nat) (h : list N) (bs : list N) : list N :=
  match count with
  | O => h
  | S n => blocks n (compress h (firstn 64 bs)) (skipn 64 bs)
  end.

Definition byte_of_N (n : N) : byte :=
  match Byte.of_N (n mod 256) with
  | Some b => b
  | None => x00
  end.

(** [crypto.subtle.digest('SHA-256', data)] *)
Definition digest (data : list byte) : list byte :=
  let padded := pad (map Byte.to_N data) in
  let h := blocks (length padded / 64) initial_hash padded in
  map byte_of_N (flat_map (be_bytes 4) h).

End SHA256.

(** ** JavaScript values *)

Module JS.

(** A value as [JSON.parse] or [response.json()] produces it, together
    with [undefined]. Numbers of a JSON text are never [NaN]; a number
    that is not an integer is non-zero, and behaves here as any non-zero
    integer does. *)
Inductive value :=
| Undefined
| Null
| Bool (b : bool)
| Number (z : Z)
| Str (s : string)
| Array (items : list value)
| Object (props : list (string * value)).

(** [if (v)], [!v], [v || w] *)
Definition truthy (v : value) : bool :=
  match v with
  | Undefined | Null => false
  | Bool b => b
  | Number z => negb (z =? 0)
  | Str s => negb (String.eqb s "")
  | Array _ | Object _ => true
  end.

Fixpoint own_property (props : list (string * value)) (k : string) : option value :=
  match props with
  | [] => None
  | (k', v) :: rest => if String.eqb k' k then Some v else own_property rest k
  end.

(** [v[k]] for a property name [k] that is neither an index nor a member
    of a prototype (the names this program reads: [issuer],
    [authorization_endpoint], ...). [None] is the [TypeError] of reading
    a property of [null] or [undefined]. *)
Definition get_field (v : value) (k : string) : option value :=
  match v with
  | Undefined | Null => None
  | Object props => Some (default Undefined (own_property props k))
  | Bool _ | Number _ | Str _ | Array _ => Some Undefined
  end.

(** A value of type [string | undefined], as [options.clientSecret]. *)
Definition truthy_string (s : option string) : bool :=
  match s with
  | Some s => negb (String.eqb s "")
  | None => false
  end.

(** An IEEE number restricted to what the token store computes with:
    an integer or [NaN]. *)
Inductive number := NaN | Num (z : Z).

Definition sub (x y : number) : number :=
  match x, y with Num a, Num b => Num (a - b) | _, _ => NaN end.

Definition mul (x y : number) : number :=
  match x, y with Num a, Num b => Num (a * b) | _, _ => NaN end.

(** [x > y]; any comparison with [NaN] is false. *)
Definition gt (x y : number) : bool :=
  match x, y with Num a, Num b => b <? a | _, _ => false end.

End JS.

(** ** The process, its environment and the monad of asynchronous code *)

Inductive PlatformFailure :=
| NetworkFailure      (* [fetch] rejected *)
| BodyNotJSON         (* [response.json()] rejected *)
| PropertyOfNull      (* TypeError: property of null or undefined *)
| InvalidURL          (* [new URL(s)] threw *)
| ListenFailed        (* [Bun.serve] threw, e.g. the port is taken *)
| SpawnFailed         (* [open] rejected *)
| NoSuchFile.         (* [fs.readFile] or [fs.unlink] rejected *)

(** What a [catch] receives: an [Error] made by the program with its
    message, or a failure raised by the platform. *)
Inductive Error :=
| JsError (message : string)
| Platform (f : PlatformFailure).

Inductive Result (A : Type) :=
| Ret (a : A)
| Throw (e : Error).
Arguments Ret {A} a.
Arguments Throw {A} e.

Record Response := {
  status : Z;
  body_text : string;             (* [await response.text()] *)
  body_json : option JS.value     (* [await response.json()], [None] when it rejects *)
}.

(** [response.ok] *)
Definition ok (r : Response) : bool := (200 <=? status r) && (status r <=? 299).

Inductive FetchResult :=
| Unreachable
| Replied (r : Response).

(** The parts of a [URL] object the program reads. *)
Record URL := { port : string; pathname : string }.

(** An inbound HTTP request: the path and the query of [new URL(req.url)]. *)
Record Request := {
  req_pathname : string;
  req_query : list (string * string)
}.

(** [`${endpoint}?${new URLSearchParams(params)}`], kept structured. *)
Record Target := { endpoint : JS.value; params : list (string * string) }.

Record CacheEntry := { config : JS.value; timestamp : Z }.

(** [TokenResponse] and [StoredToken] of [types.ts] / [auth-storage.ts].
    [stored_at] is held as [new Date(stored_at).getTime()], [NaN] for an
    invalid date; [expires_in] is [NaN] when the field is missing. *)
Record TokenResponse := {
  access_token : string;
  id_token : option string;
  token_type : string;
  expires_in : JS.number
}.

Record StoredToken := {
  token : TokenResponse;          (* [...token] *)
  token_domain : string;          (* [domain] *)
  stored_at : JS.number
}.

(** The token file: absent, or present with a content that parses to a
    stored token ([Some]) or on which the body of [loadToken] throws. *)
Inductive TokenFile :=
| NoFile
| File (content : option StoredToken).

Inductive Event :=
| EvFetch (url : string)
| EvWarn (e : Error)
| EvError (e : Error)
| EvOpen (target : Target)
| EvListen (port : Z)
| EvStop
| EvSettle (outcome : Result string)
| EvRespond (status : Z) (body : string)
| EvPost (target : Target).

(** Everything outside the process, fixed for one run. *)
Record Env := {
  entropy : nat -> byte;                 (* the bytes [randomBytes] will draw *)
  http_get : string -> FetchResult;      (* the answer to a GET *)
  http_get_ms : Z;                       (* the time a GET takes *)
  parse_URL : string -> option URL;      (* [new URL(s)] *)
  port_free : Z -> bool;
  browser_spawns : bool;
  inbound : list (Z * Request);          (* requests reaching the listener, with
                                            their arrival time in ms after it
                                            was bound, in arrival order *)
  token_reply : FetchResult              (* the answer to the token POST *)
}.

Record World := {
  configCache : gmap string CacheEntry;  (* the module-level [Map] *)
  clock : Z;                             (* ms since the epoch *)
  drawn : nat;                           (* random bytes consumed so far *)
  listener : option Z;                   (* the port the local server is bound to *)
  token_file : TokenFile;                (* [~/.clerk-oauth-cli/tokens.json] *)
  trace : list Event
}.

Definition initial_world (now : Z) : World :=
  {| configCache := ∅; clock := now; drawn := 0; listener := None;
     token_file := NoFile; trace := [] |}.

Definition set_configCache (c : gmap string CacheEntry) (w : World) : World :=
  {| configCache := c; clock := clock w; drawn := drawn w;
     listener := listener w;
     token_file := token_file w; trace := trace w |}.

Definition set_clock (t : Z) (w : World) : World :=
  {| configCache := configCache w; clock := t; drawn := drawn w;
     listener := listener w;
     token_file := token_file w; trace := trace w |}.

Definition set_drawn (n : nat) (w : World) : World :=
  {| configCache := configCache w; clock := clock w; drawn := n;
     listener := listener w;
     token_file := token_file w; trace := trace w |}.

Definition set_listener (l : option Z) (w : World) : World :=
  {| configCache := configCache w; clock := clock w; drawn := drawn w;
     listener := l;
     token_file := token_file w; trace := trace w |}.

Definition set_token_file (f : TokenFile) (w : World) : World :=
  {| configCache := configCache w; clock := clock w; drawn := drawn w;
     listener := listener w;
     token_file := f; trace := trace w |}.

Definition log (e : Event) (w : World) : World :=
  {| configCache := configCache w; clock := clock w; drawn := drawn w;
     listener := listener w;
     token_file := token_file w; trace := trace w ++ [e] |}.

Definition M (A : Type) : Type := Env -> World -> Result A * World.

Definition ret {A} (a : A) : M A := fun _ w => (Ret a, w).

Definition throw {A} (e : Error) : M A := fun _ w => (Throw e, w).

Definition bind {A B} (m : M A) (k : A -> M B) : M B :=
  fun env w =>
    match m env w with
    | (Ret a, w') => k a env w'
    | (Throw e, w') => (Throw e, w')
    end.

(** [try { m } catch (error) { handler error }] *)
Definition try_catch {A} (m : M A) (handler : Error -> M A) : M A :=
  fun env w =>
    match m env w with
    | (Ret a, w') => (Ret a, w')
    | (Throw e, w') => handler e env w'
    end.

Definition ask : M Env := fun env w => (Ret env, w).
Definition get : M World := fun _ w => (Ret w, w).
Definition modify (f : World -> World) : M unit := fun _ w => (Ret tt, f w).
Definition emit (e : Event) : M unit := modify (log e).

Notation "x <- m ;; k" := (bind m (fun x => k))
  (at level 100, m at next level, right associativity).
Notation "m ;;; k" := (bind m (fun _ => k))
  (at level 100, right associativity).

(** ** Platform operations *)

(** [Date.now()] *)
Definition Date_now : M Z := w <- get ;; ret (clock w).

(** [await fetch(url)] of the discovery document. *)
Definition fetch_get (url : string) : M Response :=
  env <- ask ;;
  emit (EvFetch url) ;;;
  w <- get ;;
  modify (set_clock (clock w + http_get_ms env)) ;;;
  match http_get env url with
  | Unreachable => throw (Platform NetworkFailure)
  | Replied r => ret r
  end.

(** [await response.json()] *)
Definition response_json (r : Response) : M JS.value :=
  match body_json r with
  | Some v => ret v
  | None => throw (Platform BodyNotJSON)
  end.

(** [v[k]] *)
Definition read_field (v : JS.value) (k : string) : M JS.value :=
  match JS.get_field v k with
  | Some x => ret x
  | None => throw (Platform PropertyOfNull)
  end.

(** [console.warn(..., error)] *)
Definition console_warn (e : Error) : M unit := emit (EvWarn e).

(** [randomBytes(n)] *)
Definition randomBytes (n : nat) : M (list byte) :=
  env <- ask ;;
  w <- get ;;
  modify (set_drawn (drawn w + n)) ;;;
  ret (map (entropy env) (seq (drawn w) n)).

(** ** openid-discovery.ts *)

Definition CACHE_DURATION : Z := 24 * 60 * 60 * 1000.

Definition requiredFields : list string :=
  ["issuer"; "authorization_endpoint"; "token_endpoint"; "userinfo_endpoint"].

Definition strings (l : list string) : JS.value := JS.Array (map JS.Str l).

Definition getDefaultClerkConfiguration (domain : string) : JS.value :=
  JS.Object
    [ ("issuer", JS.Str ("https://" +:+ domain));
      ("authorization_endpoint", JS.Str ("https://" +:+ domain +:+ "/oauth/authorize"));
      ("token_endpoint", JS.Str ("https://" +:+ domain +:+ "/oauth/token"));
      ("userinfo_endpoint", JS.Str ("https://" +:+ domain +:+ "/oauth/userinfo"));
      ("jwks_uri", JS.Str ("https://" +:+ domain +:+ "/.well-known/jwks.json"));
      ("registration_endpoint", JS.Str ("https://" +:+ domain +:+ "/oauth/register"));
      ("scopes_supported", strings ["openid"; "profile"; "email"]);
      ("response_types_supported", strings ["code"]);
      ("grant_types_supported", strings ["authorization_code"]);
      ("code_challenge_methods_supported", strings ["S256"]);
      ("token_endpoint_auth_methods_supported", strings ["client_secret_post"; "none"]) ].

(** [for (const field of fields) if (!config[field]) throw ...] *)
Fixpoint check_fields (cfg : JS.value) (fields : list string) : M unit :=
  match fields with
  | [] => ret tt
  | field :: rest =>
      v <- read_field cfg field ;;
      if JS.truthy v then check_fields cfg rest
      else throw (JsError ("Missing required field in OpenID configuration: " +:+ field))
  end.

Definition wellKnownUrl (domain : string) : string :=
  "https://" +:+ domain +:+ "/.well-known/openid-configuration".

(** The body of the [try] block. *)
Definition fetch_configuration (domain : string) : M JS.value :=
  response <- fetch_get (wellKnownUrl domain) ;;
  if negb (ok response)
  then throw (JsError ("Failed to fetch OpenID configuration: " +:+ pretty (status response)))
  else
    cfg <- response_json response ;;
    check_fields cfg requiredFields ;;;
    now <- Date_now ;;
    w <- get ;;
    modify (set_configCache
              (<[domain := {| config := cfg; timestamp := now |}]> (configCache w))) ;;;
    ret cfg.

Definition use_defaults (domain : string) (error : Error) : M JS.value :=
  console_warn error ;;;
  ret (getDefaultClerkConfiguration domain).

Definition discoverOpenIDConfiguration (domain : string) : M JS.value :=
  w <- get ;;
  let refetch := try_catch (fetch_configuration domain) (use_defaults domain) in
  match configCache w !! domain with
  | Some cached =>
      now <- Date_now ;;
      if now - timestamp cached <? CACHE_DURATION then ret (config cached)
      else refetch
  | None => refetch
  end.

Definition clearConfigCache (domain : option string) : M unit :=
  w <- get ;;
  if JS.truthy_string domain
  then modify (set_configCache (delete (default "" domain) (configCache w)))
  else modify (set_configCache ∅).

(** ** auth-storage.ts

    The file system is modelled without faults other than the token file
    being absent: [mkdir] and [writeFile] succeed, and [unlink] fails only
    when there is no file. *)

Definition fs_readFile : M (option StoredToken) :=
  w <- get ;;
  match token_file w with
  | NoFile => throw (Platform NoSuchFile)
  | File content => ret content
  end.

(** [JSON.parse(content) as StoredToken], followed by the reads of its
    fields. *)
Definition JSON_parse (content : option StoredToken) : M StoredToken :=
  match content with
  | Some t => ret t
  | None => throw (Platform BodyNotJSON)
  end.

Definition fs_writeFile (t : StoredToken) : M unit :=
  modify (set_token_file (File (Some t))).

Definition fs_unlink : M unit :=
  w <- get ;;
  match token_file w with
  | NoFile => throw (Platform NoSuchFile)
  | File _ => modify (set_token_file NoFile)
  end.

Definition saveToken (domain : string) (tok : TokenResponse) : M unit :=
  try_catch
    (now <- Date_now ;;
     let storedToken :=
       {| token := tok; token_domain := domain; stored_at := JS.Num now |} in
     fs_writeFile storedToken)
    (fun error => emit (EvError error)).

Definition clearToken : M unit :=
  try_catch fs_unlink (fun _ => ret tt).

Definition loadToken : M (option StoredToken) :=
  try_catch
    (content <- fs_readFile ;;
     tok <- JSON_parse content ;;
     let storedAt := stored_at tok in
     now <- Date_now ;;
     let expiresIn := JS.mul (expires_in (token tok)) (JS.Num 1000) in
     if JS.gt (JS.sub (JS.Num now) storedAt) expiresIn
     then clearToken ;;; ret None
     else ret (Some tok))
    (fun _ => ret None).

(** ** oauth.ts *)

Record OAuthOptions := {
  clientId : string;
  clientSecret : option string;
  redirectUri : string;
  domain : string
}.

Definition generateCodeChallenge (verifier : string) : string :=
  let data := Encoding.TextEncoder_encode verifier in
  let digest := SHA256.digest data in
  Encoding.remove_char "="
    (Encoding.replace_char "/" "_"
      (Encoding.replace_char "+" "-"
        (Encoding.btoa (Encoding.String_fromCharCode digest)))).

Definition buildAuthorizationUrl (options : OAuthOptions)
    (authorizationEndpoint : JS.value) (state codeChallenge : string)
    (usePKCE : bool) : Target :=
  let params :=
    [ ("response_type", "code");
      ("client_id", clientId options);
      ("redirect_uri", redirectUri options);
      ("state", state);
      ("scope", "profile email") ] in
  let params :=
    if usePKCE && negb (String.eqb codeChallenge "")
    then params ++ [ ("code_challenge", codeChallenge);
                     ("code_challenge_method", "S256") ]
    else params in
  {| endpoint := authorizationEndpoint; params := params |}.

(** [await open(url)] *)
Definition open (target : Target) : M unit :=
  env <- ask ;;
  emit (EvOpen target) ;;;
  if browser_spawns env then ret tt else throw (Platform SpawnFailed).

(** [new URL(s)] *)
Definition new_URL (s : string) : M URL :=
  env <- ask ;;
  match parse_URL env s with
  | Some u => ret u
  | None => throw (Platform InvalidURL)
  end.

Definition digit_value (c : ascii) : option Z :=
  let n := Z.of_N (N_of_ascii c) in
  if (48 <=? n) && (n <=? 57) then Some (n - 48) else None.

Fixpoint decimal (acc : Z) (s : string) : option Z :=
  match s with
  | EmptyString => Some acc
  | String c rest =>
      match digit_value c with
      | Some d => decimal (acc * 10 + d) rest
      | None => None
      end
  end.

(** [Number(s)] for the decimal digit strings a [URL] has as port; [None]
    is [NaN]. *)
Definition Number (s : string) : option Z := decimal 0 s.

(** [Bun.serve({ port, fetch })] *)
Definition Bun_serve (p : option Z) : M unit :=
  env <- ask ;;
  match p with
  | Some p =>
      if port_free env p
      then modify (set_listener (Some p)) ;;; emit (EvListen p)
      else throw (Platform ListenFailed)
  | None => throw (Platform ListenFailed)
  end.

(** [server.stop()] *)
Definition server_stop : M unit :=
  modify (set_listener None) ;;; emit EvStop.

(** [resolve(code)] and [reject(error)] of the promise [waitForCallback]
    returns; the value is what the awaiting caller receives. *)
Definition resolve (code : string) : M (Result string) :=
  emit (EvSettle (Ret code)) ;;; ret (Ret code).

Definition reject (error : Error) : M (Result string) :=
  emit (EvSettle (Throw error)) ;;; ret (Throw error).

(** [return new Response(body, { status })] *)
Definition respond {A} (st : Z) (body : string) (r : A) : M A :=
  emit (EvRespond st body) ;;; ret r.

(** [searchParams.get(k)]: the first value of [k], [None] for [null]. *)
Fixpoint searchParams_get (q : list (string * string)) (k : string) : option string :=
  match q with
  | [] => None
  | (k', v) :: rest => if String.eqb k' k then Some v else searchParams_get rest k
  end.

(** [state !== expectedState] *)
Definition differs (state : option string) (expectedState : string) : bool :=
  match state with
  | Some s => negb (String.eqb s expectedState)
  | None => true
  end.

(** The [fetch(req)] handler of the local server. Its result is the
    settlement of the promise it made, if any. *)
Definition handle (url : URL) (expectedState : string) (req : Request)
    : M (option (Result string)) :=
  if String.eqb (req_pathname req) (pathname url) then
    let code := searchParams_get (req_query req) "code" in
    let state := searchParams_get (req_query req) "state" in
    let error := searchParams_get (req_query req) "error" in
    if JS.truthy_string error then
      server_stop ;;;
      r <- reject (JsError ("Authorization error: " +:+ default "" error)) ;;
      respond 400 "Authorization failed. You can close this window." (Some r)
    else if differs state expectedState then
      server_stop ;;;
      r <- reject (JsError "State mismatch - possible CSRF attack") ;;
      respond 400 "State mismatch. You can close this window." (Some r)
    else if JS.truthy_string code then
      server_stop ;;;
      r <- resolve (default "" code) ;;
      respond 200 "Authorization successful! You can close this window." (Some r)
    else respond 404 "Not found" None
  else respond 404 "Not found" None.

Definition TIMEOUT_MS : Z := 300000.

(** The callback of [setTimeout(..., 300000)]. *)
Definition on_timeout : M (Result string) :=
  server_stop ;;;
  reject (JsError "Authorization timeout").

(** The event loop while the promise is pending: requests that arrive
    before the deadline are handled in order; the first one that settles
    the promise ends the wait; when none does, the timer fires. *)
Fixpoint event_loop (url : URL) (expectedState : string)
    (arrivals : list (Z * Request)) : M (Result string) :=
  match arrivals with
  | [] => on_timeout
  | (at_ms, req) :: later =>
      if at_ms <? TIMEOUT_MS then
        r <- handle url expectedState req ;;
        match r with
        | Some outcome => ret outcome
        | None => event_loop url expectedState later
        end
      else on_timeout
  end.

(** [await promise] *)
Definition await (r : Result string) : M string :=
  match r with
  | Ret v => ret v
  | Throw e => throw e
  end.

Definition waitForCallback (redirectUri expectedState : string) : M string :=
  url <- new_URL redirectUri ;;
  let port := if String.eqb (port url) "" then "3000" else port url in
  Bun_serve (Number port) ;;;
  env <- ask ;;
  outcome <- event_loop url expectedState (inbound env) ;;
  await outcome.

(** [await fetch(tokenEndpoint, { method: 'POST', body })] *)
Definition fetch_post (target : Target) : M Response :=
  env <- ask ;;
  emit (EvPost target) ;;;
  match token_reply env with
  | Unreachable => throw (Platform NetworkFailure)
  | Replied r => ret r
  end.

Definition exchange_params (options : OAuthOptions) (code codeVerifier : string)
    : list (string * string) :=
  let params :=
    [ ("grant_type", "authorization_code");
      ("code", code);
      ("client_id", clientId options);
      ("redirect_uri", redirectUri options) ] in
  if JS.truthy_string (clientSecret options)
  then params ++ [ ("client_secret", default "" (clientSecret options)) ]
  else if negb (String.eqb codeVerifier "")
  then params ++ [ ("code_verifier", codeVerifier) ]
  else params.

Definition exchangeCodeForToken (options : OAuthOptions)
    (tokenEndpoint : JS.value) (code codeVerifier : string) : M JS.value :=
  let params := exchange_params options code codeVerifier in
  response <- fetch_post {| endpoint := tokenEndpoint; params := params |} ;;
  if negb (ok response)
  then throw (JsError ("Token exchange failed: " +:+ body_text response))
  else response_json response.

Definition startOAuthFlow (options : OAuthOptions) : M JS.value :=
  cfg <- discoverOpenIDConfiguration (domain options) ;;
  stateBytes <- randomBytes 16 ;;
  let state := Encoding.toString_hex stateBytes in
  let usePKCE := negb (JS.truthy_string (clientSecret options)) in
  pkce <- (if usePKCE
           then verifierBytes <- randomBytes 32 ;;
                let codeVerifier := Encoding.toString_base64url verifierBytes in
                ret (codeVerifier, generateCodeChallenge codeVerifier)
           else ret (EmptyString, EmptyString)) ;;
  let codeVerifier := fst pkce in
  let codeChallenge := snd pkce in
  authorizationEndpoint <- read_field cfg "authorization_endpoint" ;;
  let authUrl :=
    buildAuthorizationUrl options authorizationEndpoint state codeChallenge usePKCE in
  open authUrl ;;;
  authCode <- waitForCallback (redirectUri options) state ;;
  tokenEndpoint <- read_field cfg "token_endpoint" ;;
  exchangeCodeForToken options tokenEndpoint authCode codeVerifier.

(** ** Concrete environments, used to run the model *)

Module Sample.

Definition parse (s : string) : option URL :=
  if String.eqb s "http://localhost:3000/callback"
  then Some {| port := "3000"; pathname := "/callback" |}
  else if String.eqb s "http://localhost:8976/cb"
  then Some {| port := "8976"; pathname := "/cb" |}
  else if String.eqb s "http://localhost/callback"
  then Some {| port := ""; pathname := "/callback" |}
  else None.

Definition nth_byte (i : nat) : byte := SHA256.byte_of_N (N.of_nat (37 * i + 11)).

Definition token_json : JS.value :=
  JS.Object [ ("access_token", JS.Str "at_1"); ("token_type", JS.Str "Bearer");
              ("expires_in", JS.Number 3600) ].

Definition provider_document : JS.value :=
  JS.Object
    [ ("issuer", JS.Str "https://acme.example");
      ("authorization_endpoint", JS.Str "https://acme.example/authorize");
      ("token_endpoint", JS.Str "https://acme.example/token");
      ("userinfo_endpoint", JS.Str "https://acme.example/userinfo") ].

Definition reply (v : JS.value) : FetchResult :=
  Replied {| status := 200; body_text := ""; body_json := Some v |}.

(** A provider that cannot be reached for discovery, and the requests
    [reqs] reaching the listener. *)
Definition offline (reqs : list (Z * Request)) : Env :=
  {| entropy := nth_byte;
     http_get := fun _ => Unreachable;
     http_get_ms := 40;
     parse_URL := parse;
     port_free := fun _ => true;
     browser_spawns := true;
     inbound := reqs;
     token_reply := reply token_json |}.

(** A provider that serves its discovery document. *)
Definition online (reqs : list (Z * Request)) : Env :=
  {| entropy := nth_byte;
     http_get := fun _ => reply provider_document;
     http_get_ms := 40;
     parse_URL := parse;
     port_free := fun _ => true;
     browser_spawns := true;
     inbound := reqs;
     token_reply := reply token_json |}.

Definition public_client : OAuthOptions :=
  {| clientId := "client_1"; clientSecret := None;
     redirectUri := "http://localhost:3000/callback";
     domain := "acme.example" |}.

Definition confidential_client : OAuthOptions :=
  {| clientId := "client_1"; clientSecret := Some "s3cret";
     redirectUri := "http://localhost:3000/callback";
     domain := "acme.example" |}.

(** The state [startOAuthFlow] issues under [nth_byte] from a fresh
    world: the hexadecimal form of the first 16 bytes. *)
Definition issued_state : string :=
  Encoding.toString_hex (map nth_byte (seq 0 16)).

Definition callback (query : list (string * string)) : Request :=
  {| req_pathname := "/callback"; req_query := query |}.

Definition bearer : TokenResponse :=
  {| access_token := "at_1"; id_token := None; token_type := "Bearer";
     expires_in := JS.Num 3600 |}.

Definition stored (T : Z) : StoredToken :=
  {| token := bearer; token_domain := "acme.example"; stored_at := JS.Num T |}.

End Sample.

(** ** Vocabulary of the specification *)

(** A required field is present and non-empty: reading it yields a value
    that is none of [undefined], [null], [false], [0] and [""]. *)
Definition field_ok (cfg : JS.value) (field : string) : bool :=
  match JS.get_field cfg field with
  | Some v => JS.truthy v
  | None => false
  end.

Definition has_required_fields (cfg : JS.value) : bool :=
  forallb (field_ok cfg) requiredFields.

Definition present_nonempty (cfg : JS.value) (field : string) : Prop :=
  exists v, JS.get_field cfg field = Some v /\
            v <> JS.Undefined /\ v <> JS.Null /\ v <> JS.Str "".

(** Every cached configuration went through the required-field check. *)
Definition cache_valid (w : World) : Prop :=
  forall D e, configCache w !! D = Some e -> has_required_fields (config e) = true.

(** The cache entry for [D] when it is younger than 24 hours. *)
Definition fresh_entry (D : string) (w : World) : option CacheEntry :=
  match configCache w !! D with
  | Some e => if clock w - timestamp e <? CACHE_DURATION then Some e else None
  | None => None
  end.

(** The discovery document a fetch delivers: none on transport failure,
    on a status outside 2xx, on a body that is not JSON and when a required
    field is missing. *)
Definition discovery_document (r : FetchResult) : option JS.value :=
  match r with
  | Unreachable => None
  | Replied r =>
      if ok r then
        match body_json r with
        | Some cfg => if has_required_fields cfg then Some cfg else None
        | None => None
        end
      else None
  end.

(** The network requests for a discovery document in a trace. *)
Fixpoint fetches (evs : list Event) : list string :=
  match evs with
  | [] => []
  | EvFetch url :: rest => url :: fetches rest
  | _ :: rest => fetches rest
  end.

(** *** Discovery in closed form *)

(** The world after a successful discovery. *)
Definition discovered (D : string) (cfg : JS.value) (env : Env) (w : World) : World :=
  let w1 := set_clock (clock w + http_get_ms env) (log (EvFetch (wellKnownUrl D)) w) in
  set_configCache (<[D := {| config := cfg; timestamp := clock w1 |}]> (configCache w1)) w1.

(** The world after a failed discovery, where [e] was caught. *)
Definition fell_back (D : string) (e : Error) (env : Env) (w : World) : World :=
  log (EvWarn e) (set_clock (clock w + http_get_ms env) (log (EvFetch (wellKnownUrl D)) w)).

(** *** The callback receiver in closed form *)

Definition logs (evs : list Event) (w : World) : World :=
  {| configCache := configCache w; clock := clock w; drawn := drawn w;
     listener := listener w; token_file := token_file w;
     trace := trace w ++ evs |}.

Definition state_mismatch : Error := JsError "State mismatch - possible CSRF attack".
Definition timed_out : Error := JsError "Authorization timeout".
Definition denied (detail : string) : Error := JsError ("Authorization error: " +:+ detail).

(** How a request settles the pending promise, if it does: the terminal
    transition it causes. [Throw] is Rejected, [Ret] is Succeeded. *)
Definition verdict (url : URL) (expectedState : string) (req : Request)
    : option (Result string) :=
  if String.eqb (req_pathname req) (pathname url) then
    let code := searchParams_get (req_query req) "code" in
    let state := searchParams_get (req_query req) "state" in
    let error := searchParams_get (req_query req) "error" in
    if JS.truthy_string error then Some (Throw (denied (default "" error)))
    else if differs state expectedState then Some (Throw state_mismatch)
    else if JS.truthy_string code then Some (Ret (default "" code))
    else None
  else None.

(** The response shown to the browser for a settling request. *)
Definition farewell (url : URL) (expectedState : string) (req : Request) : Event :=
  let state := searchParams_get (req_query req) "state" in
  let error := searchParams_get (req_query req) "error" in
  if JS.truthy_string error
  then EvRespond 400 "Authorization failed. You can close this window."
  else if differs state expectedState
  then EvRespond 400 "State mismatch. You can close this window."
  else EvRespond 200 "Authorization successful! You can close this window.".

(** The events of one wait and its outcome. *)
Fixpoint receiver (url : URL) (expectedState : string)
    (arrivals : list (Z * Request)) : list Event * Result string :=
  match arrivals with
  | [] => ([EvStop; EvSettle (Throw timed_out)], Throw timed_out)
  | (at_ms, req) :: later =>
      if at_ms <? TIMEOUT_MS then
        match verdict url expectedState req with
        | Some outcome =>
            ([EvStop; EvSettle outcome; farewell url expectedState req], outcome)
        | None =>
            let (evs, outcome) := receiver url expectedState later in
            (EvRespond 404 "Not found" :: evs, outcome)
        end
      else ([EvStop; EvSettle (Throw timed_out)], Throw timed_out)
  end.

(** [req] is handled while the receiver is listening: it arrives before
    the deadline, after requests that arrived before the deadline too and
    settled nothing. *)
Definition handled_while_listening (url : URL) (expectedState : string)
    (arrivals : list (Z * Request)) (req : Request) : Prop :=
  exists quiet at_ms later,
    arrivals = quiet ++ (at_ms, req) :: later /\
    at_ms < TIMEOUT_MS /\
    Forall (fun a => fst a < TIMEOUT_MS /\ verdict url expectedState (snd a) = None) quiet.

(** The port the listener is bound to for a redirect URI. *)
Definition callback_port (url : URL) : option Z :=
  Number (if String.eqb (port url) "" then "3000" else port url).

(** Monitors over a trace, started with the listener bound or not. *)

(** The listener is stopped whenever the promise is settled. *)
Fixpoint settles_stopped (bound : bool) (evs : list Event) : bool :=
  match evs with
  | [] => true
  | EvListen _ :: rest => settles_stopped true rest
  | EvStop :: rest => settles_stopped false rest
  | EvSettle _ :: rest => negb bound && settles_stopped bound rest
  | _ :: rest => settles_stopped bound rest
  end.

(** The listener is bound whenever the browser is opened. *)
Fixpoint opens_bound (bound : bool) (evs : list Event) : bool :=
  match evs with
  | [] => true
  | EvListen _ :: rest => opens_bound true rest
  | EvStop :: rest => opens_bound false rest
  | EvOpen _ :: rest => bound && opens_bound bound rest
  | _ :: rest => opens_bound bound rest
  end.

(** The listener is not bound whenever the browser is opened. *)
Fixpoint opens_unbound (bound : bool) (evs : list Event) : bool :=
  match evs with
  | [] => true
  | EvListen _ :: rest => opens_unbound true rest
  | EvStop :: rest => opens_unbound false rest
  | EvOpen _ :: rest => negb bound && opens_unbound bound rest
  | _ :: rest => opens_unbound bound rest
  end.

(** *** What one login attempt issues *)

(** PKCE is used when there is no client secret. *)
Definition usePKCE (options : OAuthOptions) : bool :=
  negb (JS.truthy_string (clientSecret options)).

(** The state issued for the attempt started in world [w]: the next 16
    random bytes, in hexadecimal. *)
Definition issued_state (env : Env) (w : World) : string :=
  Encoding.toString_hex (map (entropy env) (seq (drawn w) 16)).

(** The verifier of the attempt: the 32 random bytes after those of the
    state, in URL-safe base64 without padding; empty outside PKCE mode. *)
Definition issued_verifier (options : OAuthOptions) (env : Env) (w : World) : string :=
  if usePKCE options
  then Encoding.toString_base64url (map (entropy env) (seq (drawn w + 16) 32))
  else EmptyString.

Definition issued_challenge (options : OAuthOptions) (env : Env) (w : World) : string :=
  if usePKCE options
  then generateCodeChallenge (issued_verifier options env w)
  else EmptyString.

Definition is_respond (e : Event) : bool :=
  match e with EvRespond _ _ => true | _ => false end.

Definition is_discovery_event (e : Event) : bool :=
  match e with EvFetch _ | EvWarn _ => true | _ => false end.

(** The names of the parameters of a form body or query. *)
Definition keys (params : list (string * string)) : list string := map fst params.

(** [s] is written in the URL-safe base64 alphabet, without padding. *)
Definition url_safe (s : string) : Prop :=
  Forall (fun c => In c (list_ascii_of_string Encoding.url_alphabet))
         (list_ascii_of_string s).

Definition hex_digits : list ascii := list_ascii_of_string Encoding.hex_alphabet.

(** The three replacements [generateCodeChallenge] applies to the output
    of [btoa]. *)
Definition url_form (s : string) : string :=
  Encoding.remove_char "="
    (Encoding.replace_char "/" "_" (Encoding.replace_char "+" "-" s)).

(** The world of a login attempt after discovery and the random draws. *)
Definition drawn_for (options : OAuthOptions) (w : World) : World :=
  if usePKCE options
  then set_drawn (drawn w + 16 + 32) w
  else set_drawn (drawn w + 16) w.

Definition is_receiver_event (e : Event) : bool :=
  match e with EvStop | EvSettle _ | EvRespond _ _ => true | _ => false end.

(** The token requests, the browser navigations and the ports bound in a
    trace, in order. *)
Fixpoint posted (evs : list Event) : list Target :=
  match evs with
  | [] => []
  | EvPost target :: rest => target :: posted rest
  | _ :: rest => posted rest
  end.

Fixpoint opened (evs : list Event) : list Target :=
  match evs with
  | [] => []
  | EvOpen target :: rest => target :: opened rest
  | _ :: rest => opened rest
  end.

Fixpoint listened (evs : list Event) : list Z :=
  match evs with
  | [] => []
  | EvListen p :: rest => p :: listened rest
  | _ :: rest => listened rest
  end.

(** The shape of the events of one login attempt after discovery, with
    the result [r] of the attempt. *)
Definition attempt_events (options : OAuthOptions) (env : Env) (w : World)
    (r : Result JS.value) (rest : list Event) : Prop :=
  (rest = [] /\ exists e, r = Throw e) \/
  exists authorizationEndpoint cb,
    rest = EvOpen (buildAuthorizationUrl options authorizationEndpoint
                     (issued_state env w) (issued_challenge options env w)
                     (usePKCE options)) :: cb /\
    ((cb = [] /\ exists e, r = Throw e) \/
     exists url p evs outcome post,
       parse_URL env (redirectUri options) = Some url /\
       callback_port url = Some p /\
       receiver url (issued_state env w) (inbound env) = (evs, outcome) /\
       cb = EvListen p :: evs ++ post /\
       match outcome with
       | Throw e => post = [] /\ r = Throw e
       | Ret authCode =>
           (post = [] /\ exists e, r = Throw e) \/
           exists tokenEndpoint,
             post = [EvPost {| endpoint := tokenEndpoint;
                               params := exchange_params options authCode
                                           (issued_verifier options env w) |}]
       end).



(** ** The rest of the command-line client

    [client-registration.ts], [api-client.ts] and [fetchUserInfo] of
    [oauth.ts]. These read and write a second file and talk to further
    HTTP endpoints, so they run on a [Machine], which extends the [World]
    above, with [Services], which extend [Env]. *)

(** A request made with [fetch(url, { method, headers, body })]; a body is
    the value handed to [JSON.stringify]. *)
Record HttpCall := {
  call_method : string;
  call_url : JS.value;
  call_headers : list (string * string);
  call_body : option JS.value
}.

(** [~/.clerk-oauth-cli/clients.json]: absent, or present with a content
    that [JSON.parse] rejects ([None]) or turns into a value. What the
    program writes is [JSON.stringify] of values that came out of
    [JSON.parse] or [response.json()]; reading such a text back gives the
    value again, so the file is held as the value. As for the token file,
    [mkdir] and [writeFile] are taken to succeed. *)
Inductive ClientsFile :=
| NoClients
| Clients (content : option JS.value).

Record Services := {
  platform : Env;
  http : HttpCall -> FetchResult;     (* the answer to any other request *)
  API_URL : option string             (* [process.env.API_URL] *)
}.

Record Machine := {
  world : World;
  clients_file : ClientsFile;
  calls : list HttpCall;              (* the requests made, in order *)
  console : list string               (* the lines printed, unstyled *)
}.

Definition boot (w : World) : Machine :=
  {| world := w; clients_file := NoClients; calls := []; console := [] |}.

Definition set_world (w : World) (m : Machine) : Machine :=
  {| world := w; clients_file := clients_file m; calls := calls m;
     console := console m |}.

Definition set_clients_file (f : ClientsFile) (m : Machine) : Machine :=
  {| world := world m; clients_file := f; calls := calls m;
     console := console m |}.

Definition record_call (c : HttpCall) (m : Machine) : Machine :=
  {| world := world m; clients_file := clients_file m; calls := calls m ++ [c];
     console := console m |}.

Definition record_line (s : string) (m : Machine) : Machine :=
  {| world := world m; clients_file := clients_file m; calls := calls m;
     console := console m ++ [s] |}.

Definition P (A : Type) : Type := Services -> Machine -> Result A * Machine.

Definition pure {A} (a : A) : P A := fun _ m => (Ret a, m).

Definition raise {A} (e : Error) : P A := fun _ m => (Throw e, m).

Definition and_then {A B} (c : P A) (k : A -> P B) : P B :=
  fun sv m =>
    match c sv m with
    | (Ret a, m') => k a sv m'
    | (Throw e, m') => (Throw e, m')
    end.

(** [try { c } catch (error) { handler error }] *)
Definition attempt {A} (c : P A) (handler : Error -> P A) : P A :=
  fun sv m =>
    match c sv m with
    | (Ret a, m') => (Ret a, m')
    | (Throw e, m') => handler e sv m'
    end.

(** A computation of the first part, run on the world inside the machine. *)
Definition lift {A} (c : M A) : P A :=
  fun sv m =>
    let (r, w') := c (platform sv) (world m) in (r, set_world w' m).

Definition machine : P Machine := fun _ m => (Ret m, m).
Definition services : P Services := fun sv m => (Ret sv, m).
Definition update (f : Machine -> Machine) : P unit := fun _ m => (Ret tt, f m).

Notation "x <~ c ;; k" := (and_then c (fun x => k))
  (at level 100, c at next level, right associativity).
Notation "c ~~> k" := (and_then c (fun _ => k))
  (at level 100, right associativity).

(** [console.log(line)], [console.warn(line)] *)
Definition print (line : string) : P unit := update (record_line line).

(** [await fetch(url, init)] *)
Definition fetch (c : HttpCall) : P Response :=
  sv <~ services ;;
  update (record_call c) ~~>
  match http sv c with
  | Unreachable => raise (Platform NetworkFailure)
  | Replied r => pure r
  end.

(** [await response.json()] *)
Definition json_of (r : Response) : P JS.value :=
  match body_json r with
  | Some v => pure v
  | None => raise (Platform BodyNotJSON)
  end.

(** [v[k]] *)
Definition field (v : JS.value) (k : string) : P JS.value :=
  match JS.get_field v k with
  | Some x => pure x
  | None => raise (Platform PropertyOfNull)
  end.

(** *** Objects as records of registrations *)

Fixpoint put_key (props : list (string * JS.value)) (k : string) (x : JS.value)
    : list (string * JS.value) :=
  match props with
  | [] => [(k, x)]
  | (k', v) :: rest =>
      if String.eqb k' k then (k, x) :: rest else (k', v) :: put_key rest k x
  end.

Fixpoint drop_key (props : list (string * JS.value)) (k : string)
    : list (string * JS.value) :=
  match props with
  | [] => []
  | (k', v) :: rest =>
      if String.eqb k' k then drop_key rest k else (k', v) :: drop_key rest k
  end.

(** [v[k] = x] in module code (strict mode), as [JSON.stringify] sees the
    result, for a property name as in [JS.get_field]: an object gets or
    changes the property; an array takes it without showing it; [null]
    and the primitive values throw a [TypeError] ([None]). *)
Definition assign (v : JS.value) (k : string) (x : JS.value) : option JS.value :=
  match v with
  | JS.Object props => Some (JS.Object (put_key props k x))
  | JS.Array items => Some (JS.Array items)
  | JS.Undefined | JS.Null | JS.Bool _ | JS.Number _ | JS.Str _ => None
  end.

(** [delete v[k]], under the same conditions: only [null] throws. *)
Definition unset (v : JS.value) (k : string) : option JS.value :=
  match v with
  | JS.Object props => Some (JS.Object (drop_key props k))
  | JS.Undefined | JS.Null => None
  | JS.Array _ | JS.Bool _ | JS.Number _ | JS.Str _ => Some v
  end.

(** [v || null] *)
Definition or_null (v : JS.value) : JS.value :=
  if JS.truthy v then v else JS.Null.

(** *** client-registration.ts *)

Definition read_clients : P (option JS.value) :=
  m <~ machine ;;
  match clients_file m with
  | NoClients => raise (Platform NoSuchFile)
  | Clients content => pure content
  end.

(** [JSON.parse(fileContent)] *)
Definition parse_clients (content : option JS.value) : P JS.value :=
  match content with
  | Some v => pure v
  | None => raise (Platform BodyNotJSON)
  end.

(** [fs.writeFile(CONFIG_FILE, JSON.stringify(data, null, 2))] *)
Definition write_clients (data : JS.value) : P unit :=
  update (set_clients_file (Clients (Some data))).

Definition saveClientData (domain : string) (clientData : JS.value) : P unit :=
  attempt
    (existingData <~
       attempt (fileContent <~ read_clients ;; parse_clients fileContent)
               (fun _ => pure (JS.Object [])) ;;
     match assign existingData domain clientData with
     | Some data => write_clients data
     | None => raise (Platform PropertyOfNull)
     end)
    (fun _ => print "Warning: Could not save client data locally").

Definition loadClientData (domain : string) : P JS.value :=
  attempt
    (fileContent <~ read_clients ;;
     data <~ parse_clients fileContent ;;
     entry <~ field data domain ;;
     pure (or_null entry))
    (fun _ => pure JS.Null).

Definition deleteClientData (domain : string) : P unit :=
  attempt
    (fileContent <~ read_clients ;;
     data <~ parse_clients fileContent ;;
     match unset data domain with
     | Some data' => write_clients data'
     | None => raise (Platform PropertyOfNull)
     end)
    (fun _ => pure tt).

Definition registrationRequest (appName : string) : JS.value :=
  JS.Object
    [ ("client_name", JS.Str appName);
      ("redirect_uris", strings ["http://localhost:3000/callback"]);
      ("grant_types", strings ["authorization_code"]);
      ("response_types", strings ["code"]);
      ("token_endpoint_auth_method", JS.Str "none");
      ("application_type", JS.Str "native");
      ("scope", JS.Str "openid profile email") ].

(** [appName] is [None] when the caller leaves it out. *)
Definition registerClient (domain : string) (appName : option string) : P JS.value :=
  let appName := default "Clerk OAuth CLI" appName in
  cfg <~ lift (discoverOpenIDConfiguration domain) ;;
  registrationEndpoint <~ field cfg "registration_endpoint" ;;
  if negb (JS.truthy registrationEndpoint)
  then raise (JsError "OAuth provider does not support dynamic client registration")
  else
    print "Registering OAuth client..." ~~>
    response <~
      fetch {| call_method := "POST";
               call_url := registrationEndpoint;
               call_headers := [("Content-Type", "application/json")];
               call_body := Some (registrationRequest appName) |} ;;
    if negb (ok response)
    then raise (JsError ("Client registration failed: " +:+ body_text response))
    else
      clientData <~ json_of response ;;
      saveClientData domain clientData ~~>
      pure clientData.

(** *** oauth.ts, [fetchUserInfo] *)


(** *** api-client.ts *)

Record ApiOptions := {
  method : option string;
  body : JS.value;                          (* [undefined] when left out *)
  headers : list (string * string)          (* empty when left out *)
}.

Definition no_options : ApiOptions :=
  {| method := None; body := JS.Undefined; headers := [] |}.

(** [process.env.API_URL || 'http://localhost:3001'] *)
Definition API_BASE_URL (sv : Services) : string :=
  if JS.truthy_string (API_URL sv) then default "" (API_URL sv)
  else "http://localhost:3001".

(** [{ ...base, ...more }] on string-valued records. *)
Fixpoint set_header (hs : list (string * string)) (k v : string)
    : list (string * string) :=
  match hs with
  | [] => [(k, v)]
  | (k', v') :: rest =>
      if String.eqb k' k then (k, v) :: rest else (k', v') :: set_header rest k v
  end.

Definition spread (base more : list (string * string)) : list (string * string) :=
  fold_left (fun hs kv => set_header hs (fst kv) (snd kv)) more base.

Definition double_quote : string := String (ascii_of_nat 34) EmptyString.

Definition not_authenticated : Error :=
  JsError ("Not authenticated. Please run " +:+ double_quote +:+
           "clerk-tasks login" +:+ double_quote +:+ " first.").

Definition apiRequest (endpoint : string) (options : ApiOptions) : P JS.value :=
  tok <~ lift loadToken ;;
  match tok with
  | None => raise not_authenticated
  | Some tok =>
      sv <~ services ;;
      let url := API_BASE_URL sv +:+ "/api" +:+ endpoint in
      let hs :=
        spread [ ("Authorization", "Bearer " +:+ access_token (token tok));
                 ("Content-Type", "application/json") ]
               (headers options) in
      response <~
        fetch {| call_method :=
                   if JS.truthy_string (method options)
                   then default "" (method options) else "GET";
                 call_url := JS.Str url;
                 call_headers := hs;
                 call_body :=
                   if JS.truthy (body options) then Some (body options) else None |} ;;
      if negb (ok response)
      then raise (JsError ("API request failed: " +:+ body_text response))
      else json_of response
  end.

(** [api.tasks] *)
Definition tasks_list : P JS.value := apiRequest "/tasks" no_options.

Definition tasks_get (id : string) : P JS.value :=
  apiRequest ("/tasks/" +:+ id) no_options.

Definition tasks_create (data : JS.value) : P JS.value :=
  apiRequest "/tasks" {| method := Some "POST"; body := data; headers := [] |}.

Definition tasks_update (id : string) (data : JS.value) : P JS.value :=
  apiRequest ("/tasks/" +:+ id) {| method := Some "PATCH"; body := data; headers := [] |}.

Definition tasks_delete (id : string) : P JS.value :=
  apiRequest ("/tasks/" +:+ id) {| method := Some "DELETE"; body := JS.Undefined; headers := [] |}.

(** The property names an object inherits; reading or writing one of
    them does not reach an own property, so the results on files of
    registrations are stated for the other names. *)
Definition inherited_names : list string :=
  [ "__proto__"; "constructor"; "hasOwnProperty"; "isPrototypeOf";
    "propertyIsEnumerable"; "toLocaleString"; "toString"; "valueOf";
    "__defineGetter__"; "__defineSetter__"; "__lookupGetter__";
    "__lookupSetter__" ].

(** The clients file a running program can find: none, one that is not
    JSON, or the object a previous run wrote. *)
Definition usual_clients_file (m : Machine) : Prop :=
  clients_file m = NoClients \/ clients_file m = Clients None \/
  exists props, clients_file m = Clients (Some (JS.Object props)).


(** What [loadClientData] returns on a machine. *)
Definition registered (domain : string) (m : Machine) : JS.value :=
  match clients_file m with
  | Clients (Some data) =>
      match JS.get_field data domain with
      | Some entry => or_null entry
      | None => JS.Null
      end
  | _ => JS.Null
  end.

(** The content [saveClientData] starts from. *)
Definition existing (m : Machine) : JS.value :=
  match clients_file m with
  | Clients (Some data) => data
  | _ => JS.Object []
  end.

(** Reading an association list of strings, the first entry of a key
    counting, and the last. *)
Definition header (hs : list (string * string)) (k : string) : option string :=
  searchParams_get hs k.

Definition last_header (hs : list (string * string)) (k : string) : option string :=
  searchParams_get (rev hs) k.

(** The request [registerClient] makes. *)
Definition registration_call (registrationEndpoint : JS.value) (appName : option string)
    : HttpCall :=
  {| call_method := "POST";
     call_url := registrationEndpoint;
     call_headers := [("Content-Type", "application/json")];
     call_body := Some (registrationRequest (default "Clerk OAuth CLI" appName)) |}.


(** How the program reads the answer to a request: the JSON body of a
    2xx answer, an error made of [prefix] and the body of another answer,
    a platform failure otherwise. *)
Definition answer (prefix : string) (reply : FetchResult) : Result JS.value :=
  match reply with
  | Unreachable => Throw (Platform NetworkFailure)
  | Replied response =>
      if ok response then
        match body_json response with
        | Some v => Ret v
        | None => Throw (Platform BodyNotJSON)
        end
      else Throw (JsError (prefix +:+ body_text response))
  end.

(** Sample services: a provider that is down for discovery and answers
    every other request with [reply]. *)
Definition sample_services (env : Env) (reply : FetchResult) : Services :=
  {| platform := env; http := fun _ => reply; API_URL := None |}.


(** The expiry test of [loadToken] on a stored token, at the world's
    clock. *)
Definition expired (w : World) (t : StoredToken) : bool :=
  JS.gt (JS.sub (JS.Num (clock w)) (stored_at t))
        (JS.mul (expires_in (token t)) (JS.Num 1000)).

(** The headers [apiRequest] starts from. *)
Definition default_headers (t : StoredToken) : list (string * string) :=
  [ ("Authorization", "Bearer " +:+ access_token (token t));
    ("Content-Type", "application/json") ].

(** ** Results *)

Ltac run :=
  unfold bind, ret, throw, try_catch, get, ask, modify, emit; simpl.

(** *** The metadata resolver *)

Lemma fetches_app (a b : list Event) : fetches (a ++ b) = fetches a ++ fetches b.
Proof.
  induction a as [|e a IH]; simpl; [reflexivity|].
  destruct e; simpl; rewrite IH; reflexivity.
Qed.

Lemma truthy_nonempty (v : JS.value) :
  JS.truthy v = true -> v <> JS.Undefined /\ v <> JS.Null /\ v <> JS.Str "".
Proof.
  intros H. repeat split; intros ->; simpl in H; discriminate.
Qed.

Lemma field_ok_present (cfg : JS.value) (field : string) :
  field_ok cfg field = true -> present_nonempty cfg field.
Proof.
  unfold field_ok, present_nonempty. destruct (JS.get_field cfg field) as [v|]; [|discriminate].
  intros H. exists v. split; [reflexivity|]. apply truthy_nonempty, H.
Qed.

Lemma has_required_fields_present (cfg : JS.value) :
  has_required_fields cfg = true ->
  Forall (present_nonempty cfg) requiredFields.
Proof.
  unfold has_required_fields. intros H.
  apply Forall_forall. intros f Hf. apply field_ok_present.
  rewrite forallb_forall in H. apply H. apply list_elem_of_In, Hf.
Qed.

(** The loop over the required fields succeeds exactly when all of them
    are present and non-empty, and changes nothing. *)
Lemma check_fields_spec (cfg : JS.value) (fields : list string) env w :
  (forallb (field_ok cfg) fields = true /\ check_fields cfg fields env w = (Ret tt, w)) \/
  (forallb (field_ok cfg) fields = false /\ exists e, check_fields cfg fields env w = (Throw e, w)).
Proof.
  induction fields as [|f fields IH]; simpl.
  - left. split; reflexivity.
  - unfold read_field, field_ok at 1 3. run.
    destruct (JS.get_field cfg f) as [v|]; simpl.
    + destruct (JS.truthy v); simpl.
      * exact IH.
      * right. split; [reflexivity|]. eexists. reflexivity.
    + right. split; [reflexivity|]. eexists. reflexivity.
Qed.

Arguments check_fields : simpl never.

Lemma refetch_spec (D : string) env w :
  match discovery_document (http_get env (wellKnownUrl D)) with
  | Some cfg =>
      try_catch (fetch_configuration D) (use_defaults D) env w =
      (Ret cfg, discovered D cfg env w)
  | None =>
      exists e, try_catch (fetch_configuration D) (use_defaults D) env w =
                (Ret (getDefaultClerkConfiguration D), fell_back D e env w)
  end.
Proof.
  unfold discovery_document, fetch_configuration, fetch_get, use_defaults,
    console_warn, response_json, Date_now. run.
  destruct (http_get env (wellKnownUrl D)) as [|r]; simpl.
  { eexists. reflexivity. }
  destruct (ok r); simpl; [|eexists; reflexivity].
  destruct (body_json r) as [cfg|]; simpl; [|eexists; reflexivity].
  unfold has_required_fields.
  match goal with |- context [check_fields cfg requiredFields env ?w1] =>
    destruct (check_fields_spec cfg requiredFields env w1) as [[Hb Hc]|[Hb [e Hc]]];
    rewrite Hb, Hc; simpl
  end.
  - reflexivity.
  - eexists. reflexivity.
Qed.

Lemma discover_spec (D : string) env w :
  discoverOpenIDConfiguration D env w =
  match fresh_entry D w with
  | Some e => (Ret (config e), w)
  | None => try_catch (fetch_configuration D) (use_defaults D) env w
  end.
Proof.
  unfold discoverOpenIDConfiguration, fresh_entry, Date_now. run.
  destruct (configCache w !! D) as [e|]; [|reflexivity].
  destruct (clock w - timestamp e <? CACHE_DURATION); reflexivity.
Qed.

Lemma fresh_entry_Some (D : string) (w : World) (e : CacheEntry) :
  fresh_entry D w = Some e <->
  configCache w !! D = Some e /\ clock w - timestamp e < 86400000.
Proof.
  unfold fresh_entry, CACHE_DURATION.
  destruct (configCache w !! D) as [e'|]; [|split; [discriminate|intros [? _]; discriminate]].
  destruct (Z.ltb_spec (clock w - timestamp e') (24 * 60 * 60 * 1000)) as [Hlt|Hge].
  - split.
    + intros [= ->]. split; [reflexivity|lia].
    + intros [[= ->] _]. reflexivity.
  - split; [discriminate|]. intros [[= ->] Hlt]. lia.
Qed.

Lemma fresh_entry_None (D : string) (w : World) :
  fresh_entry D w = None <->
  configCache w !! D = None \/
  exists e, configCache w !! D = Some e /\ 86400000 <= clock w - timestamp e.
Proof.
  unfold fresh_entry, CACHE_DURATION.
  destruct (configCache w !! D) as [e'|].
  - destruct (Z.ltb_spec (clock w - timestamp e') (24 * 60 * 60 * 1000)) as [Hlt|Hge].
    + split; [discriminate|]. intros [?|[e [[= ->] Hge]]]; [discriminate|lia].
    + split; [|reflexivity]. intros _. right. exists e'. split; [reflexivity|lia].
  - split; [|reflexivity]. intros _. left. reflexivity.
Qed.

Lemma discovery_document_valid (r : FetchResult) (cfg : JS.value) :
  discovery_document r = Some cfg -> has_required_fields cfg = true.
Proof.
  unfold discovery_document. destruct r as [|r]; [discriminate|].
  destruct (ok r); [|discriminate].
  destruct (body_json r) as [c|]; [|discriminate].
  destruct (has_required_fields c) eqn:H; [|discriminate].
  intros [= <-]. exact H.
Qed.

Lemma defaults_valid (D : string) :
  has_required_fields (getDefaultClerkConfiguration D) = true.
Proof.
  unfold has_required_fields, field_ok. simpl.
  destruct D; reflexivity.
Qed.

(** The cache invariant holds when the process starts and is kept by
    [clearConfigCache]. *)
Lemma cache_valid_initial (now : Z) : cache_valid (initial_world now).
Proof. intros D e H. simpl in H. rewrite lookup_empty in H. discriminate. Qed.

Lemma cache_valid_clear (domain : option string) env w :
  cache_valid w -> cache_valid (snd (clearConfigCache domain env w)).
Proof.
  intros Hv D e. unfold clearConfigCache. run.
  destruct (JS.truthy_string domain); simpl.
  - intros H. apply lookup_delete_Some in H as [_ H]. exact (Hv D e H).
  - rewrite lookup_empty. discriminate.
Qed.

Lemma discover_without_fresh_entry (D : string) env w :
  fresh_entry D w = None ->
  exists cfg w' tail,
    discoverOpenIDConfiguration D env w = (Ret cfg, w') /\
    trace w' = trace w ++ EvFetch (wellKnownUrl D) :: tail /\
    fetches tail = [].
Proof.
  intros Hfresh. rewrite discover_spec, Hfresh.
  pose proof (refetch_spec D env w) as Hr.
  destruct (discovery_document (http_get env (wellKnownUrl D))) as [cfg|].
  - exists cfg, (discovered D cfg env w), []. split; [exact Hr|]. split; reflexivity.
  - destruct Hr as [err Hr].
    exists (getDefaultClerkConfiguration D), (fell_back D err env w), [EvWarn err].
    split; [exact Hr|]. split; [|reflexivity].
    unfold fell_back. simpl. rewrite <- app_assoc. reflexivity.
Qed.

(** Discovery returns, draws no random bytes, leaves the listener alone
    and only adds fetches and warnings to the trace. *)
Lemma discover_frame (D : string) env w :
  exists cfg w1 dis,
    discoverOpenIDConfiguration D env w = (Ret cfg, w1) /\
    drawn w1 = drawn w /\ listener w1 = listener w /\
    trace w1 = trace w ++ dis /\ forallb is_discovery_event dis = true.
Proof.
  rewrite discover_spec. destruct (fresh_entry D w) as [e|].
  - exists (config e), w, []. rewrite app_nil_r. repeat split.
  - pose proof (refetch_spec D env w) as Hr.
    destruct (discovery_document (http_get env (wellKnownUrl D))) as [cfg|].
    + exists cfg, (discovered D cfg env w), [EvFetch (wellKnownUrl D)]. repeat split. exact Hr.
    + destruct Hr as [err Hr].
      exists (getDefaultClerkConfiguration D), (fell_back D err env w),
        [EvFetch (wellKnownUrl D); EvWarn err].
      split; [exact Hr|]. repeat split. simpl. rewrite <- app_assoc. reflexivity.
Qed.

(** C3. For every domain, discovery returns (it never throws) a
    configuration whose four required fields are present and non-empty,
    and keeps the cache invariant; when a fetch is made and delivers no
    acceptable document (transport failure, status outside 2xx, body that
    is not JSON, missing required field), the result is the fallback built
    from the conventional paths under [https://D/]. *)
Theorem discovery_total_and_complete (D : string) (env : Env) (w : World) :
  cache_valid w ->
  exists cfg w',
    discoverOpenIDConfiguration D env w = (Ret cfg, w') /\
    Forall (present_nonempty cfg) requiredFields /\
    cache_valid w' /\
    (fresh_entry D w = None ->
     discovery_document (http_get env (wellKnownUrl D)) = None ->
     cfg = getDefaultClerkConfiguration D /\
     JS.get_field cfg "issuer" = Some (JS.Str ("https://" +:+ D)) /\
     JS.get_field cfg "authorization_endpoint" =
       Some (JS.Str ("https://" +:+ D +:+ "/oauth/authorize")) /\
     JS.get_field cfg "token_endpoint" =
       Some (JS.Str ("https://" +:+ D +:+ "/oauth/token")) /\
     JS.get_field cfg "userinfo_endpoint" =
       Some (JS.Str ("https://" +:+ D +:+ "/oauth/userinfo"))).
Proof.
  intros Hv. rewrite discover_spec.
  destruct (fresh_entry D w) as [e|] eqn:Hfresh.
  - exists (config e), w. split; [reflexivity|].
    apply fresh_entry_Some in Hfresh as [Hin _].
    split; [apply has_required_fields_present, (Hv D e Hin)|].
    split; [exact Hv|]. discriminate.
  - pose proof (refetch_spec D env w) as Hr.
    destruct (discovery_document (http_get env (wellKnownUrl D))) as [cfg|] eqn:Hdoc.
    + exists cfg, (discovered D cfg env w). split; [exact Hr|].
      apply discovery_document_valid in Hdoc.
      split; [apply has_required_fields_present, Hdoc|].
      split; [|discriminate].
      intros D' e'. unfold discovered. simpl. intros H.
      apply lookup_insert_Some in H as [[_ <-]|[_ H]]; [exact Hdoc|exact (Hv D' e' H)].
    + destruct Hr as [err Hr].
      exists (getDefaultClerkConfiguration D), (fell_back D err env w).
      split; [exact Hr|].
      split; [apply has_required_fields_present, defaults_valid|].
      split; [exact Hv|].
      intros _ _. repeat split; reflexivity.
Qed.

Lemma discovery_total_and_complete_witness :
  exists cfg w',
    discoverOpenIDConfiguration "acme.example" (Sample.offline []) (initial_world 0)
      = (Ret cfg, w') /\
    Forall (present_nonempty cfg) requiredFields /\
    JS.get_field cfg "authorization_endpoint" =
      Some (JS.Str "https://acme.example/oauth/authorize").
Proof.
  destruct (discovery_total_and_complete "acme.example" (Sample.offline [])
              (initial_world 0) (cache_valid_initial 0))
    as (cfg & w' & Hrun & Hfields & _ & Hfallback).
  exists cfg, w'. split; [exact Hrun|]. split; [exact Hfields|].
  destruct (Hfallback eq_refl eq_refl) as (_ & _ & Hauth & _). exact Hauth.
Defined.

(** C9. When the cache holds an entry for the domain that is younger than
    24 hours, discovery returns its configuration and leaves the world as
    it was: nothing is fetched. When it holds none, or one that is 24
    hours old or older, the discovery document is requested exactly
    once. *)
Theorem cache_hit_or_single_fetch (D : string) (env : Env) (w : World) :
  (forall e,
      configCache w !! D = Some e ->
      clock w - timestamp e < 24 * 60 * 60 * 1000 ->
      discoverOpenIDConfiguration D env w = (Ret (config e), w)) /\
  (configCache w !! D = None \/
   (exists e, configCache w !! D = Some e /\
              24 * 60 * 60 * 1000 <= clock w - timestamp e) ->
   exists cfg w' evs,
     discoverOpenIDConfiguration D env w = (Ret cfg, w') /\
     trace w' = trace w ++ evs /\
     fetches evs = [wellKnownUrl D]).
Proof.
  split.
  - intros e He Hage.
    assert (Hfresh : fresh_entry D w = Some e) by (apply fresh_entry_Some; split; [exact He|lia]).
    rewrite discover_spec, Hfresh. reflexivity.
  - intros Hstale.
    assert (Hfresh : fresh_entry D w = None).
    { apply fresh_entry_None. destruct Hstale as [Hnone|(e & He & Hage)];
        [left; exact Hnone|right; exists e; split; [exact He|lia]]. }
    destruct (discover_without_fresh_entry D env w Hfresh)
      as (cfg & w' & tail & Hrun & Htrace & Htail).
    exists cfg, w', (EvFetch (wellKnownUrl D) :: tail).
    split; [exact Hrun|]. split; [exact Htrace|]. simpl. rewrite Htail. reflexivity.
Qed.

Lemma cache_hit_or_single_fetch_witness :
  let env := Sample.online [] in
  let first := discoverOpenIDConfiguration "acme.example" env (initial_world 0) in
  let later := set_clock 86399999 (snd first) in
  fetches (trace (snd first)) = [wellKnownUrl "acme.example"] /\
  discoverOpenIDConfiguration "acme.example" env later = (fst first, later).
Proof.
  intros env first later.
  destruct (cache_hit_or_single_fetch "acme.example" env (initial_world 0))
    as (_ & Hmiss).
  destruct (Hmiss (or_introl eq_refl)) as (cfg & w' & evs & Hrun & Htrace & Hfetch).
  assert (Hfirst : first = (Ret cfg, w')) by exact Hrun.
  split.
  - rewrite Hfirst. simpl. rewrite Htrace. exact Hfetch.
  - destruct (cache_hit_or_single_fetch "acme.example" env later) as (Hhit & _).
    apply (Hhit {| config := Sample.provider_document; timestamp := 40 |}).
    + vm_compute. reflexivity.
    + simpl. lia.
Defined.

(** C10. When discovery falls back, the cache is left as it was, so a
    later call for the same domain that finds no fresh entry requests the
    discovery document again; this includes the very next call, since time
    does not run backwards. *)
Theorem fallback_not_cached (D : string) (env : Env) (w : World) :
  fresh_entry D w = None ->
  discovery_document (http_get env (wellKnownUrl D)) = None ->
  exists w',
    discoverOpenIDConfiguration D env w = (Ret (getDefaultClerkConfiguration D), w') /\
    configCache w' = configCache w /\
    (forall env2 w2,
        configCache w2 = configCache w' -> fresh_entry D w2 = None ->
        fetches (trace (snd (discoverOpenIDConfiguration D env2 w2))) =
        fetches (trace w2) ++ [wellKnownUrl D]) /\
    (0 <= http_get_ms env -> fresh_entry D w' = None).
Proof.
  intros Hfresh Hdoc. rewrite discover_spec, Hfresh.
  pose proof (refetch_spec D env w) as Hr. rewrite Hdoc in Hr.
  destruct Hr as [err Hr]. exists (fell_back D err env w).
  split; [exact Hr|]. split; [reflexivity|]. split.
  - intros env2 w2 _ Hfresh2.
    destruct (discover_without_fresh_entry D env2 w2 Hfresh2)
      as (cfg & w2' & tail & Hrun2 & Htrace & Htail).
    rewrite Hrun2. simpl. rewrite Htrace, fetches_app. simpl.
    rewrite Htail. reflexivity.
  - intros Hms. apply fresh_entry_None. apply fresh_entry_None in Hfresh.
    unfold fell_back. simpl.
    destruct Hfresh as [Hnone|[e [He Hage]]]; [left; exact Hnone|].
    right. exists e. split; [exact He|lia].
Qed.

Lemma fallback_not_cached_witness :
  exists w',
    discoverOpenIDConfiguration "acme.example" (Sample.offline []) (initial_world 0)
      = (Ret (getDefaultClerkConfiguration "acme.example"), w') /\
    configCache w' = ∅ /\
    fetches (trace (snd (discoverOpenIDConfiguration "acme.example" (Sample.offline []) w')))
      = fetches (trace w') ++ [wellKnownUrl "acme.example"].
Proof.
  destruct (fallback_not_cached "acme.example" (Sample.offline []) (initial_world 0)
              eq_refl eq_refl) as (w' & Hrun & Hcache & Hagain & Hnext).
  exists w'. split; [exact Hrun|]. split; [exact Hcache|].
  apply Hagain; [reflexivity|]. apply Hnext. simpl. lia.
Defined.

(** *** The token store *)

(** [loadToken] never throws. *)
Lemma loadToken_total env w : exists r w', loadToken env w = (Ret r, w').
Proof.
  unfold loadToken, fs_readFile, JSON_parse, Date_now, clearToken, fs_unlink. run.
  destruct (token_file w) as [|[t|]] eqn:Hfile; simpl;
    try (eexists; eexists; reflexivity).
  destruct (JS.gt _ _); simpl; rewrite ?Hfile; eexists; eexists; reflexivity.
Qed.

(** C2, as the code has it. A token stored at instant [T] (ms) with a
    lifetime of [L] seconds is returned, and the world left as it was, as
    long as [now <= T + 1000 L]; from the first millisecond after that the
    file is removed and [null] is returned. *)
Theorem loadToken_expiry (env : Env) (w : World) (t : StoredToken) (T L : Z) :
  token_file w = File (Some t) ->
  stored_at t = JS.Num T ->
  expires_in (token t) = JS.Num L ->
  loadToken env w =
    if clock w <=? T + 1000 * L
    then (Ret (Some t), w)
    else (Ret None, set_token_file NoFile w).
Proof.
  intros Hfile HT HL.
  unfold loadToken, fs_readFile, JSON_parse, Date_now, clearToken, fs_unlink. run.
  rewrite Hfile. simpl. rewrite HT, HL. simpl.
  destruct (Z.ltb_spec (L * 1000) (clock w - T)) as [Hexp|Hval];
    destruct (Z.leb_spec (clock w) (T + 1000 * L)) as [Hle|Hgt]; try lia.
  - simpl. rewrite Hfile. reflexivity.
  - reflexivity.
Qed.

Lemma loadToken_expiry_witness :
  let env := Sample.offline [] in
  let saved := snd (saveToken "acme.example" Sample.bearer env (initial_world 0)) in
  loadToken env (set_clock 3599000 saved) =
    (Ret (Some (Sample.stored 0)), set_clock 3599000 saved) /\
  loadToken env (set_clock 3601000 saved) =
    (Ret None, set_token_file NoFile (set_clock 3601000 saved)).
Proof.
  intros env saved. split.
  - exact (loadToken_expiry env (set_clock 3599000 saved) (Sample.stored 0) 0 3600
             eq_refl eq_refl eq_refl).
  - exact (loadToken_expiry env (set_clock 3601000 saved) (Sample.stored 0) 0 3600
             eq_refl eq_refl eq_refl).
Defined.

(** C2 as stated fails at the instant of expiry: with [T = 0] and
    [L = 3600 s], at [now = T + L] the record is still returned and the
    file is kept. *)
Lemma loadToken_at_expiry_instant :
  let env := Sample.offline [] in
  let saved := snd (saveToken "acme.example" Sample.bearer env (initial_world 0)) in
  let w := set_clock 3600000 saved in
  stored_at (Sample.stored 0) = JS.Num 0 /\
  expires_in (token (Sample.stored 0)) = JS.Num 3600 /\
  clock w >= 0 + 1000 * 3600 /\
  loadToken env w = (Ret (Some (Sample.stored 0)), w) /\
  token_file w = File (Some (Sample.stored 0)).
Proof.
  repeat split; try reflexivity. simpl. lia.
Qed.

(** *** The callback receiver *)

Lemma logs_app (a b : list Event) (w : World) : logs b (logs a w) = logs (a ++ b) w.
Proof. unfold logs. simpl. rewrite app_assoc. reflexivity. Qed.

Lemma handle_spec (url : URL) (expectedState : string) (req : Request) env w :
  handle url expectedState req env w =
  match verdict url expectedState req with
  | Some outcome =>
      (Ret (Some outcome),
       logs [EvStop; EvSettle outcome; farewell url expectedState req]
            (set_listener None w))
  | None => (Ret None, logs [EvRespond 404 "Not found"] w)
  end.
Proof.
  unfold handle, verdict, farewell, server_stop, reject, resolve, respond,
    denied, state_mismatch, logs. run.
  destruct (String.eqb (req_pathname req) (pathname url)); [|reflexivity].
  destruct (JS.truthy_string (searchParams_get (req_query req) "error")); simpl.
  { unfold log. simpl. rewrite <- !app_assoc. reflexivity. }
  destruct (differs (searchParams_get (req_query req) "state") expectedState); simpl.
  { unfold log. simpl. rewrite <- !app_assoc. reflexivity. }
  destruct (JS.truthy_string (searchParams_get (req_query req) "code")); simpl.
  { unfold log. simpl. rewrite <- !app_assoc. reflexivity. }
  reflexivity.
Qed.

Lemma on_timeout_spec env w :
  on_timeout env w =
  (Ret (Throw timed_out), logs [EvStop; EvSettle (Throw timed_out)] (set_listener None w)).
Proof.
  unfold on_timeout, server_stop, reject, timed_out, logs. run.
  unfold log. simpl. rewrite <- !app_assoc. reflexivity.
Qed.

Lemma event_loop_spec (url : URL) (expectedState : string)
    (arrivals : list (Z * Request)) env w :
  event_loop url expectedState arrivals env w =
  (Ret (snd (receiver url expectedState arrivals)),
   logs (fst (receiver url expectedState arrivals)) (set_listener None w)).
Proof.
  revert w. induction arrivals as [|[at_ms req] later IH]; intros w; simpl.
  - apply on_timeout_spec.
  - destruct (at_ms <? TIMEOUT_MS); [|apply on_timeout_spec].
    unfold bind at 1. rewrite handle_spec.
    destruct (verdict url expectedState req) as [outcome|]; [reflexivity|].
    rewrite IH. destruct (receiver url expectedState later) as [evs outcome]. simpl.
    unfold logs. simpl. rewrite <- app_assoc. reflexivity.
Qed.

Lemma waitForCallback_spec (redirectUri expectedState : string) env w :
  waitForCallback redirectUri expectedState env w =
  match parse_URL env redirectUri with
  | None => (Throw (Platform InvalidURL), w)
  | Some url =>
      match callback_port url with
      | None => (Throw (Platform ListenFailed), w)
      | Some p =>
          if port_free env p then
            let (evs, outcome) := receiver url expectedState (inbound env) in
            (outcome, logs (EvListen p :: evs) (set_listener None w))
          else (Throw (Platform ListenFailed), w)
      end
  end.
Proof.
  unfold waitForCallback, new_URL, Bun_serve, callback_port.
  unfold bind at 1. unfold ask at 1. unfold bind at 1.
  destruct (parse_URL env redirectUri) as [url|]; [|reflexivity].
  unfold ret at 1.
  unfold bind at 1. unfold bind at 1. unfold ask at 1.
  destruct (Number _) as [p|]; [|reflexivity].
  destruct (port_free env p); [|reflexivity].
  unfold bind at 1. unfold modify at 1. unfold emit, modify.
  unfold bind at 1. unfold ask at 1. unfold bind at 1.
  rewrite event_loop_spec.
  destruct (receiver url expectedState (inbound env)) as [evs outcome]. simpl.
  unfold logs, await. simpl.
  destruct outcome; unfold ret, throw; rewrite <- app_assoc; reflexivity.
Qed.

Lemma settles_stopped_responds (bound : bool) (quiet rest : list Event) :
  forallb is_respond quiet = true ->
  settles_stopped bound (quiet ++ rest) = settles_stopped bound rest.
Proof.
  induction quiet as [|e quiet IH]; simpl; [reflexivity|].
  destruct e; simpl; try discriminate. exact IH.
Qed.

Lemma responds_are_receiver_events (evs : list Event) :
  forallb is_respond evs = true -> forallb is_receiver_event evs = true.
Proof.
  induction evs as [|e evs IH]; simpl; [reflexivity|].
  destruct e; simpl; try discriminate; exact IH.
Qed.

Lemma receiver_events_silent (evs : list Event) :
  forallb is_receiver_event evs = true ->
  posted evs = [] /\ opened evs = [] /\ listened evs = [].
Proof.
  induction evs as [|e evs IH]; simpl; [repeat split|].
  destruct e; simpl; try discriminate; exact IH.
Qed.

Section Receiver.

Variables (url : URL) (expectedState : string).

Lemma receiver_shape (arrivals : list (Z * Request)) :
  exists quiet tail,
    fst (receiver url expectedState arrivals) =
      quiet ++ EvStop :: EvSettle (snd (receiver url expectedState arrivals)) :: tail /\
    forallb is_respond quiet = true /\ forallb is_respond tail = true.
Proof.
  induction arrivals as [|[at_ms req] later IH]; simpl.
  - exists [], []. repeat split.
  - destruct (at_ms <? TIMEOUT_MS); [|exists [], []; repeat split].
    destruct (verdict url expectedState req) as [outcome|].
    + exists [], [farewell url expectedState req]. simpl. repeat split.
      unfold farewell.
      destruct (JS.truthy_string _); [reflexivity|].
      destruct (differs _ _); reflexivity.
    + destruct IH as (quiet & tail & Hevs & Hq & Ht).
      destruct (receiver url expectedState later) as [evs outcome]. simpl in *.
      exists (EvRespond 404 "Not found" :: quiet), tail. rewrite Hevs.
      repeat split; assumption.
Qed.

Lemma receiver_handled (arrivals : list (Z * Request)) (req : Request) (outcome : Result string) :
  handled_while_listening url expectedState arrivals req ->
  verdict url expectedState req = Some outcome ->
  exists quiet,
    receiver url expectedState arrivals =
      (quiet ++ [EvStop; EvSettle outcome; farewell url expectedState req], outcome) /\
    forallb is_respond quiet = true.
Proof.
  intros (quiet & at_ms & later & -> & Hat & Hquiet) Hv.
  induction Hquiet as [|[t q] quiet [Ht Hq] _ IH]; simpl in *.
  - apply Z.ltb_lt in Hat. rewrite Hat, Hv. exists []. split; reflexivity.
  - apply Z.ltb_lt in Ht. rewrite Ht, Hq.
    destruct IH as (evs & -> & Hevs).
    exists (EvRespond 404 "Not found" :: evs). split; [reflexivity|exact Hevs].
Qed.

Lemma receiver_quiet (arrivals : list (Z * Request)) :
  (forall a, In a arrivals -> fst a < TIMEOUT_MS -> verdict url expectedState (snd a) = None) ->
  exists quiet,
    receiver url expectedState arrivals =
      (quiet ++ [EvStop; EvSettle (Throw timed_out)], Throw timed_out) /\
    forallb is_respond quiet = true.
Proof.
  induction arrivals as [|[at_ms req] later IH]; intros Hquiet; simpl.
  - exists []. split; reflexivity.
  - destruct (Z.ltb_spec at_ms TIMEOUT_MS) as [Hlt|Hge]; [|exists []; split; reflexivity].
    pose proof (Hquiet (at_ms, req) (or_introl eq_refl) Hlt) as Hv.
    simpl in Hv. rewrite Hv.
    destruct IH as (quiet & -> & Hq).
    { intros a Ha. apply Hquiet. right. exact Ha. }
    exists (EvRespond 404 "Not found" :: quiet). split; [reflexivity|exact Hq].
Qed.

Lemma settles_stopped_receiver (arrivals : list (Z * Request)) (bound : bool) :
  settles_stopped bound (fst (receiver url expectedState arrivals)) = true.
Proof.
  destruct (receiver_shape arrivals) as (quiet & tail & -> & Hq & Ht).
  rewrite settles_stopped_responds by exact Hq. simpl.
  rewrite <- (app_nil_r tail). rewrite settles_stopped_responds by exact Ht. reflexivity.
Qed.

Lemma receiver_events (arrivals : list (Z * Request)) :
  forallb is_receiver_event (fst (receiver url expectedState arrivals)) = true.
Proof.
  destruct (receiver_shape arrivals) as (quiet & tail & -> & Hq & Ht).
  rewrite forallb_app. simpl.
  rewrite (responds_are_receiver_events _ Hq), (responds_are_receiver_events _ Ht).
  reflexivity.
Qed.

(** A code the receiver resolves with is not empty. *)
Lemma verdict_code (req : Request) (authCode : string) :
  verdict url expectedState req = Some (Ret authCode) -> authCode <> "".
Proof.
  unfold verdict.
  destruct (String.eqb _ _); [|discriminate].
  destruct (JS.truthy_string (searchParams_get (req_query req) "error")); [discriminate|].
  destruct (differs _ _); [discriminate|].
  destruct (searchParams_get (req_query req) "code") as [c|]; simpl; [|discriminate].
  destruct (String.eqb_spec c ""); simpl; [discriminate|].
  intros [= <-]. assumption.
Qed.

Lemma receiver_code (arrivals : list (Z * Request)) (authCode : string) :
  snd (receiver url expectedState arrivals) = Ret authCode -> authCode <> "".
Proof.
  induction arrivals as [|[at_ms req] later IH]; simpl; [discriminate|].
  destruct (at_ms <? TIMEOUT_MS); [|discriminate].
  destruct (verdict url expectedState req) as [outcome|] eqn:Hv.
  - simpl. intros ->. exact (verdict_code _ _ Hv).
  - destruct (receiver url expectedState later). exact IH.
Qed.

End Receiver.

(** C8. Whatever happens, when the wait is over the listener is not
    bound, and in the events of the wait the listener is stopped before
    the promise is settled; unless the listener could not be bound at all,
    the outcome the caller receives is the one the promise was settled
    with. When the listener is bound and no request arriving within the
    5 minutes settles the promise, the wait ends with the timeout error,
    right after the listener is stopped. *)
Theorem listener_stopped_on_every_exit (redirectUri expectedState : string)
    (env : Env) (w : World) (r : Result string) (w' : World) :
  listener w = None ->
  waitForCallback redirectUri expectedState env w = (r, w') ->
  TIMEOUT_MS = 5 * 60 * 1000 /\
  listener w' = None /\
  (exists evs, trace w' = trace w ++ evs /\
               settles_stopped false evs = true /\
               (evs = [] \/ In (EvSettle r) evs)) /\
  (forall url p,
      parse_URL env redirectUri = Some url ->
      callback_port url = Some p ->
      port_free env p = true ->
      (forall a, In a (inbound env) -> fst a < TIMEOUT_MS ->
                 verdict url expectedState (snd a) = None) ->
      r = Throw timed_out /\
      exists quiet, forallb is_respond quiet = true /\
        trace w' = trace w ++ EvListen p :: quiet ++ [EvStop; EvSettle (Throw timed_out)]).
Proof.
  intros Hunbound Hrun. rewrite waitForCallback_spec in Hrun.
  split; [reflexivity|].
  destruct (parse_URL env redirectUri) as [url|] eqn:Hurl.
  2:{ injection Hrun as <- <-. split; [exact Hunbound|]. split; [|discriminate].
      exists []. rewrite app_nil_r. repeat split. left. reflexivity. }
  destruct (callback_port url) as [p|] eqn:Hport.
  2:{ injection Hrun as <- <-. split; [exact Hunbound|]. split.
      - exists []. rewrite app_nil_r. repeat split. left. reflexivity.
      - intros url' p' [= <-]. rewrite Hport. discriminate. }
  destruct (port_free env p) eqn:Hfree.
  2:{ injection Hrun as <- <-. split; [exact Hunbound|]. split.
      - exists []. rewrite app_nil_r. repeat split. left. reflexivity.
      - intros url' p' [= <-]. rewrite Hport. intros [= <-]. rewrite Hfree. discriminate. }
  pose proof (settles_stopped_receiver url expectedState (inbound env) true) as Hmon.
  pose proof (receiver_shape url expectedState (inbound env)) as (quiet & tail & Hshape & _ & _).
  destruct (receiver url expectedState (inbound env)) as [evs outcome] eqn:Hrec.
  simpl in Hmon, Hshape. injection Hrun as <- <-.
  split; [reflexivity|]. split.
  - exists (EvListen p :: evs). split; [reflexivity|]. split; [exact Hmon|].
    right. right. rewrite Hshape. apply in_or_app. right. right. left. reflexivity.
  - intros url' p' [= <-]. rewrite Hport. intros [= <-] _ Hquiet.
    destruct (receiver_quiet url expectedState (inbound env) Hquiet) as (q & Hq & Hresp).
    rewrite Hrec in Hq. injection Hq as -> ->.
    split; [reflexivity|]. exists q. split; [exact Hresp|reflexivity].
Qed.

Lemma listener_stopped_on_every_exit_witness :
  let env := Sample.offline
               [ (1000, Sample.callback [("state", "expected")]);
                 (400000, Sample.callback [("code", "abc"); ("state", "expected")]) ] in
  let run := waitForCallback "http://localhost:3000/callback" "expected" env (initial_world 0) in
  fst run = Throw timed_out /\ listener (snd run) = None.
Proof.
  intros env run.
  destruct (listener_stopped_on_every_exit "http://localhost:3000/callback" "expected"
              env (initial_world 0) (fst run) (snd run) eq_refl eq_refl)
    as (_ & Hstopped & _ & Htimeout).
  split; [|exact Hstopped].
  apply (Htimeout {| port := "3000"; pathname := "/callback" |} 3000 eq_refl eq_refl eq_refl).
  intros a [<-|[<-|[]]]; simpl; [reflexivity|unfold TIMEOUT_MS; lia].
Defined.

(** C6, as the code has it. A request on the redirect path whose [error]
    parameter is not empty makes the handler stop the listener and reject
    with that error string as detail, whatever its [state] and [code] are;
    when the receiver is listening as the request arrives, this is the
    outcome of the wait. *)
Theorem provider_error_rejected (redirectUri expectedState : string) (url : URL)
    (req : Request) (detail : string) (env : Env) (w : World) :
  req_pathname req = pathname url ->
  searchParams_get (req_query req) "error" = Some detail ->
  detail <> "" ->
  handle url expectedState req env w =
    (Ret (Some (Throw (JsError ("Authorization error: " +:+ detail)))),
     logs [ EvStop; EvSettle (Throw (JsError ("Authorization error: " +:+ detail)));
            EvRespond 400 "Authorization failed. You can close this window." ]
          (set_listener None w)) /\
  (forall p,
      parse_URL env redirectUri = Some url ->
      callback_port url = Some p ->
      port_free env p = true ->
      handled_while_listening url expectedState (inbound env) req ->
      exists w',
        waitForCallback redirectUri expectedState env w =
          (Throw (JsError ("Authorization error: " +:+ detail)), w') /\
        listener w' = None).
Proof.
  intros Hpath Herror Hdetail.
  assert (Hv : verdict url expectedState req = Some (Throw (denied detail))).
  { unfold verdict. rewrite Hpath, String.eqb_refl, Herror. simpl.
    destruct (String.eqb_spec detail ""); [contradiction|reflexivity]. }
  assert (Hf : farewell url expectedState req =
               EvRespond 400 "Authorization failed. You can close this window.").
  { unfold farewell. rewrite Herror. simpl.
    destruct (String.eqb_spec detail ""); [contradiction|reflexivity]. }
  split.
  - rewrite handle_spec, Hv, Hf. reflexivity.
  - intros p Hurl Hport Hfree Hhandled.
    rewrite waitForCallback_spec, Hurl, Hport, Hfree.
    destruct (receiver_handled _ _ _ _ _ Hhandled Hv) as (quiet & -> & _).
    eexists. split; reflexivity.
Qed.

Lemma provider_error_rejected_witness :
  let req := Sample.callback [("error", "access_denied"); ("state", "anything")] in
  exists w',
    waitForCallback "http://localhost:3000/callback" "expected"
      (Sample.offline [(1000, req)]) (initial_world 0) =
      (Throw (JsError "Authorization error: access_denied"), w') /\
    listener w' = None.
Proof.
  intros req.
  refine (proj2 (provider_error_rejected "http://localhost:3000/callback" "expected"
                   {| port := "3000"; pathname := "/callback" |} req "access_denied"
                   (Sample.offline [(1000, req)]) (initial_world 0)
                   eq_refl eq_refl _) 3000 eq_refl eq_refl eq_refl _).
  - discriminate.
  - exists [], 1000, []. split; [reflexivity|]. split; [reflexivity|constructor].
Defined.

(** C6 as stated fails for an [error] parameter that is present and
    empty: the request is not rejected for it, and with the right state
    and a code the wait succeeds. *)
Lemma empty_error_parameter_succeeds :
  let req := Sample.callback [("error", ""); ("state", "expected"); ("code", "abc")] in
  let run := waitForCallback "http://localhost:3000/callback" "expected"
               (Sample.offline [(1000, req)]) (initial_world 0) in
  req_pathname req = "/callback" /\
  searchParams_get (req_query req) "error" = Some "" /\
  fst run = Ret "abc" /\
  In (EvSettle (Ret "abc")) (trace (snd run)).
Proof.
  repeat split; try reflexivity. simpl. tauto.
Qed.

(** *** Encodings *)

Lemma list_ind3 {A} (P : list A -> Prop) :
  P [] -> (forall a, P [a]) -> (forall a b, P [a; b]) ->
  (forall a b c rest, P rest -> P (a :: b :: c :: rest)) ->
  forall l, P l.
Proof.
  intros H0 H1 H2 H3 l.
  assert (H : P l /\ (forall a, P (a :: l)) /\ (forall a b, P (a :: b :: l))).
  { induction l as [|x l (IH0 & IH1 & IH2)].
    - repeat split; auto.
    - repeat split; auto. }
  apply H.
Qed.

Lemma url_form_sextet (q k : N) (s : string) :
  url_form (String (Encoding.sextet Encoding.std_alphabet q k) s) =
  String (Encoding.sextet Encoding.url_alphabet q k) (url_form s).
Proof.
  unfold Encoding.sextet, Encoding.char_at.
  set (i := N.to_nat ((q / 64 ^ (3 - k)) mod 64)).
  assert (Hi : (i < 64)%nat).
  { subst i. pose proof (N.mod_upper_bound (q / 64 ^ (3 - k)) 64). lia. }
  clearbody i.
  do 64 (destruct i as [|i]; [reflexivity|]). lia.
Qed.

Lemma sextet_url_safe (q k : N) :
  In (Encoding.sextet Encoding.url_alphabet q k)
     (list_ascii_of_string Encoding.url_alphabet).
Proof.
  unfold Encoding.sextet, Encoding.char_at.
  set (i := N.to_nat ((q / 64 ^ (3 - k)) mod 64)).
  assert (Hi : (i < 64)%nat).
  { subst i. pose proof (N.mod_upper_bound (q / 64 ^ (3 - k)) 64). lia. }
  clearbody i.
  do 64 (destruct i as [|i]; [simpl; tauto|]). lia.
Qed.

(** Replacing [+] and [/] and dropping [=] in the padded standard
    encoding gives the unpadded URL-safe encoding. *)
Lemma url_form_base64 (bs : list byte) :
  url_form (Encoding.base64 Encoding.std_alphabet true bs) =
  Encoding.base64 Encoding.url_alphabet false bs.
Proof.
  induction bs as [|a|a b|a b c rest IH] using list_ind3.
  - reflexivity.
  - cbn [Encoding.base64]. rewrite !url_form_sextet. reflexivity.
  - cbn [Encoding.base64]. rewrite !url_form_sextet. reflexivity.
  - cbn [Encoding.base64]. rewrite !url_form_sextet, IH. reflexivity.
Qed.

Lemma base64url_url_safe (bs : list byte) : url_safe (Encoding.toString_base64url bs).
Proof.
  unfold url_safe, Encoding.toString_base64url.
  induction bs as [|a|a b|a b c rest IH] using list_ind3;
    cbn [Encoding.base64 list_ascii_of_string];
    repeat (constructor; [apply sextet_url_safe|]);
    first [exact IH | constructor].
Qed.

Lemma bytes_of_string_of_bytes (bs : list byte) :
  Encoding.bytes_of_string (Encoding.string_of_bytes bs) = bs.
Proof.
  unfold Encoding.bytes_of_string, Encoding.string_of_bytes.
  rewrite list_ascii_of_string_of_list_ascii, map_map.
  rewrite <- (map_id bs) at 2. apply map_ext. intros b. apply byte_of_ascii_of_byte.
Qed.

Lemma generateCodeChallenge_spec (verifier : string) :
  generateCodeChallenge verifier =
  Encoding.toString_base64url (SHA256.digest (Encoding.TextEncoder_encode verifier)).
Proof.
  unfold generateCodeChallenge, Encoding.btoa, Encoding.String_fromCharCode,
    Encoding.toString_base64url.
  rewrite bytes_of_string_of_bytes. apply url_form_base64.
Qed.

Lemma base64url_length_32 (bs : list byte) :
  length bs = 32%nat -> String.length (Encoding.toString_base64url bs) = 43%nat.
Proof.
  intros H. unfold Encoding.toString_base64url.
  do 32 (destruct bs as [|? bs]; [discriminate|]).
  destruct bs; [reflexivity|discriminate].
Qed.

Lemma compress_length (h block : list N) :
  length h = 8%nat -> length (SHA256.compress h block) = 8%nat.
Proof.
  intros H. unfold SHA256.compress.
  rewrite length_map, length_combine, H. reflexivity.
Qed.

Lemma blocks_length (count : nat) (h bs : list N) :
  length h = 8%nat -> length (SHA256.blocks count h bs) = 8%nat.
Proof.
  revert h bs. induction count as [|n IH]; intros h bs H; simpl; [exact H|].
  apply IH, compress_length, H.
Qed.

Lemma digest_length (data : list byte) : length (SHA256.digest data) = 32%nat.
Proof.
  unfold SHA256.digest. rewrite length_map.
  pose proof (blocks_length (length (SHA256.pad (map Byte.to_N data)) / 64)
                SHA256.initial_hash (SHA256.pad (map Byte.to_N data)) eq_refl) as H.
  destruct (SHA256.blocks _ _ _) as [|h0 [|h1 [|h2 [|h3 [|h4 [|h5 [|h6 [|h7 [|]]]]]]]]];
    try discriminate.
  reflexivity.
Qed.

Lemma challenge_length (verifier : string) :
  String.length (generateCodeChallenge verifier) = 43%nat.
Proof.
  rewrite generateCodeChallenge_spec. apply base64url_length_32, digest_length.
Qed.

(** The challenge of RFC 7636, appendix B. *)
Example generateCodeChallenge_rfc7636 :
  generateCodeChallenge "dBjftJeZ4CVP-mB92K27uhbUJU1p1r_wW1gFWFOEjXk" =
  "E9Melhoa2OwvFrEMTJguCHaoeK1t8URWbuGJSstw-cM".
Proof. vm_compute. reflexivity. Qed.

Example digest_abc :
  Encoding.toString_hex (SHA256.digest (Encoding.bytes_of_string "abc")) =
  "ba7816bf8f01cfea414140de5dae2223b00361a396177a9cb410ff61f20015ad".
Proof. vm_compute. reflexivity. Qed.

Lemma prefix_app (t1 t2 s : string) :
  String.prefix (t1 +:+ t2) s = true -> String.prefix t1 s = true.
Proof.
  revert s. induction t1 as [|c t1 IH]; intros s H.
  - destruct s; reflexivity.
  - destruct s as [|d s]; simpl in *; [discriminate|].
    destruct (ascii_dec c d); [apply IH, H|discriminate].
Qed.

Lemma includes_app (s t1 t2 : string) :
  Encoding.includes s (t1 +:+ t2) = true -> Encoding.includes s t1 = true.
Proof.
  induction s as [|c s IH]; intros H.
  - change (String.prefix (t1 +:+ t2) "" || false = true) in H.
    change (String.prefix t1 "" || false = true).
    apply orb_true_iff in H as [H|H]; [|discriminate].
    rewrite (prefix_app _ _ _ H). reflexivity.
  - change (String.prefix (t1 +:+ t2) (String c s)
            || Encoding.includes s (t1 +:+ t2) = true) in H.
    change (String.prefix t1 (String c s) || Encoding.includes s t1 = true).
    apply orb_true_iff in H as [H|H].
    + rewrite (prefix_app _ _ _ H). reflexivity.
    + rewrite (IH H). apply orb_true_r.
Qed.

Lemma hex_digit_in (i : N) :
  (i < 16)%N -> In (Encoding.char_at Encoding.hex_alphabet i) hex_digits.
Proof.
  intros Hi. unfold Encoding.char_at.
  assert (Hn : (N.to_nat i < 16)%nat) by lia.
  destruct (N.to_nat i) as [|n]; [simpl; tauto|].
  do 15 (destruct n as [|n]; [simpl; tauto|]). lia.
Qed.

Lemma hex_of_byte_digits (b : byte) :
  exists hi lo,
    Encoding.hex_of_byte b = String hi (String lo EmptyString) /\
    In hi hex_digits /\ In lo hex_digits.
Proof.
  unfold Encoding.hex_of_byte. eexists; eexists. split; [reflexivity|].
  pose proof (Byte.to_N_bounded b) as Hb. split; apply hex_digit_in.
  - apply N.Div0.div_lt_upper_bound. lia.
  - apply N.mod_upper_bound. lia.
Qed.

(** No three consecutive characters of the texts sent on a state
    mismatch are all hexadecimal digits. *)
Lemma no_hex_run (text : string) :
  text = "State mismatch - possible CSRF attack" \/
  text = "State mismatch. You can close this window." ->
  forall a b c, In a hex_digits -> In b hex_digits -> In c hex_digits ->
    Encoding.includes text (String a (String b (String c EmptyString))) = false.
Proof.
  intros Htext.
  assert (H : forallb (fun a => forallb (fun b => forallb (fun c =>
                negb (Encoding.includes text (String a (String b (String c EmptyString)))))
              hex_digits) hex_digits) hex_digits = true).
  { destruct Htext as [-> | ->]; vm_compute; reflexivity. }
  intros a b c Ha Hb Hc.
  rewrite forallb_forall in H. specialize (H a Ha).
  rewrite forallb_forall in H. specialize (H b Hb).
  rewrite forallb_forall in H. specialize (H c Hc).
  apply negb_true_iff in H. exact H.
Qed.

Lemma issued_state_not_shown (text : string) env w :
  text = "State mismatch - possible CSRF attack" \/
  text = "State mismatch. You can close this window." ->
  Encoding.includes text (issued_state env w) = false.
Proof.
  intros Htext. unfold issued_state.
  cbn [seq map Encoding.toString_hex].
  destruct (hex_of_byte_digits (entropy env (drawn w))) as (a & b & -> & Ha & Hb).
  destruct (hex_of_byte_digits (entropy env (S (drawn w)))) as (c & d & -> & Hc & _).
  destruct (Encoding.includes text _) eqn:Hinc; [|reflexivity].
  change (String a (String b "") +:+ String c (String d "") +:+ ?rest)
    with (String a (String b (String c "")) +:+ String d rest) in Hinc.
  apply includes_app in Hinc.
  rewrite (no_hex_run text Htext a b c Ha Hb Hc) in Hinc. discriminate.
Qed.

(** *** The login attempt *)

Lemma posted_app (a b : list Event) : posted (a ++ b) = posted a ++ posted b.
Proof.
  induction a as [|e a IH]; simpl; [reflexivity|].
  destruct e; simpl; rewrite IH; reflexivity.
Qed.

Lemma opened_app (a b : list Event) : opened (a ++ b) = opened a ++ opened b.
Proof.
  induction a as [|e a IH]; simpl; [reflexivity|].
  destruct e; simpl; rewrite IH; reflexivity.
Qed.

Lemma listened_app (a b : list Event) : listened (a ++ b) = listened a ++ listened b.
Proof.
  induction a as [|e a IH]; simpl; [reflexivity|].
  destruct e; simpl; rewrite IH; reflexivity.
Qed.

Lemma discovery_events_silent (dis : list Event) :
  forallb is_discovery_event dis = true ->
  posted dis = [] /\ opened dis = [] /\ listened dis = [].
Proof.
  induction dis as [|e dis IH]; simpl; [repeat split|].
  destruct e; simpl; try discriminate; exact IH.
Qed.

Lemma opens_unbound_discovery (bound : bool) (dis rest : list Event) :
  forallb is_discovery_event dis = true ->
  opens_unbound bound (dis ++ rest) = opens_unbound bound rest.
Proof.
  induction dis as [|e dis IH]; simpl; [reflexivity|].
  destruct e; simpl; try discriminate; exact IH.
Qed.

Lemma opens_unbound_no_open (bound : bool) (evs : list Event) :
  opened evs = [] -> opens_unbound bound evs = true.
Proof.
  revert bound. induction evs as [|e evs IH]; intros bound; simpl; [reflexivity|].
  destruct e; simpl; try discriminate; intros H; apply IH, H.
Qed.

Lemma exchange_spec (options : OAuthOptions) (tokenEndpoint : JS.value)
    (code codeVerifier : string) env w :
  exists r,
    exchangeCodeForToken options tokenEndpoint code codeVerifier env w =
    (r, logs [EvPost {| endpoint := tokenEndpoint;
                        params := exchange_params options code codeVerifier |}] w).
Proof.
  unfold exchangeCodeForToken, fetch_post, response_json. run.
  destruct (token_reply env) as [|resp]; simpl; [eexists; reflexivity|].
  destruct (ok resp); simpl; [|eexists; reflexivity].
  destruct (body_json resp); eexists; reflexivity.
Qed.

(** The attempt, step by step. *)
Lemma startOAuthFlow_spec (options : OAuthOptions) env w :
  startOAuthFlow options env w =
  match discoverOpenIDConfiguration (domain options) env w with
  | (Throw e, w1) => (Throw e, w1)
  | (Ret cfg, w1) =>
      let w2 := drawn_for options w1 in
      match JS.get_field cfg "authorization_endpoint" with
      | None => (Throw (Platform PropertyOfNull), w2)
      | Some authorizationEndpoint =>
          let authUrl :=
            buildAuthorizationUrl options authorizationEndpoint
              (issued_state env w1) (issued_challenge options env w1)
              (usePKCE options) in
          let w3 := logs [EvOpen authUrl] w2 in
          if browser_spawns env then
            match waitForCallback (redirectUri options) (issued_state env w1) env w3 with
            | (Throw e, w4) => (Throw e, w4)
            | (Ret authCode, w4) =>
                match JS.get_field cfg "token_endpoint" with
                | None => (Throw (Platform PropertyOfNull), w4)
                | Some tokenEndpoint =>
                    exchangeCodeForToken options tokenEndpoint authCode
                      (issued_verifier options env w1) env w4
                end
            end
          else (Throw (Platform SpawnFailed), w3)
      end
  end.
Proof.
  unfold startOAuthFlow. unfold bind at 1.
  destruct (discoverOpenIDConfiguration (domain options) env w) as [[cfg|e] w1];
    [|reflexivity].
  unfold drawn_for, issued_state, issued_challenge, issued_verifier, usePKCE.
  destruct (JS.truthy_string (clientSecret options));
    cbv [negb bind ret throw get ask modify emit randomBytes read_field open fst snd
         set_drawn drawn log logs trace configCache clock listener token_file].
  all: destruct (JS.get_field cfg "authorization_endpoint") as [ep|];
    cbv beta iota; [|reflexivity].
  all: destruct (browser_spawns env); cbv beta iota; [|reflexivity].
  all: match goal with |- context [waitForCallback ?u ?s ?en ?w3] =>
         destruct (waitForCallback u s en w3) as [[authCode|e] w4]
       end; [|reflexivity].
  all: destruct (JS.get_field cfg "token_endpoint"); reflexivity.
Qed.

Lemma attempt_shape (options : OAuthOptions) env w r w' :
  startOAuthFlow options env w = (r, w') ->
  exists dis rest,
    trace w' = trace w ++ dis ++ rest /\
    forallb is_discovery_event dis = true /\
    attempt_events options env w r rest /\
    (listener w = None -> listener w' = None).
Proof.
  rewrite startOAuthFlow_spec.
  destruct (discover_frame (domain options) env w)
    as (cfg & w1 & dis & -> & Hdrawn & Hlistener & Htrace & Hdis).
  assert (Hstate : issued_state env w1 = issued_state env w)
    by (unfold issued_state; rewrite Hdrawn; reflexivity).
  assert (Hverifier : issued_verifier options env w1 = issued_verifier options env w)
    by (unfold issued_verifier; rewrite Hdrawn; reflexivity).
  assert (Hchallenge : issued_challenge options env w1 = issued_challenge options env w)
    by (unfold issued_challenge; rewrite Hverifier; reflexivity).
  rewrite Hstate, Hverifier, Hchallenge. clear Hstate Hverifier Hchallenge.
  assert (Htrace2 : trace (drawn_for options w1) = trace w ++ dis)
    by (unfold drawn_for; destruct (usePKCE options); exact Htrace).
  assert (Hlistener2 : listener (drawn_for options w1) = listener w)
    by (unfold drawn_for; destruct (usePKCE options); exact Hlistener).
  cbv zeta.
  destruct (JS.get_field cfg "authorization_endpoint") as [ep|].
  2:{ intros [= <- <-]. exists dis, []. rewrite app_nil_r.
      split; [exact Htrace2|]. split; [exact Hdis|]. split.
      - left. split; [reflexivity|]. eexists; reflexivity.
      - rewrite Hlistener2. auto. }
  destruct (browser_spawns env).
  2:{ intros [= <- <-]. eexists dis, [_]. split; [simpl; rewrite Htrace2, <- ?app_assoc; reflexivity|].
      split; [exact Hdis|]. split.
      - right. eexists ep, []. split; [reflexivity|]. left. split; [reflexivity|]. eexists; reflexivity.
      - simpl. rewrite Hlistener2. auto. }
  rewrite waitForCallback_spec.
  set (authUrl := buildAuthorizationUrl _ _ _ _ _).
  assert (Hearly : forall f, (Throw (Platform f), logs [EvOpen authUrl] (drawn_for options w1)) = (r, w') ->
    exists dis rest, trace w' = trace w ++ dis ++ rest /\
      forallb is_discovery_event dis = true /\ attempt_events options env w r rest /\
      (listener w = None -> listener w' = None)).
  { intros f [= <- <-]. exists dis, [EvOpen authUrl].
    split; [simpl; rewrite Htrace2, <- ?app_assoc; reflexivity|].
    split; [exact Hdis|]. split.
    - right. exists ep, []. split; [reflexivity|]. left. split; [reflexivity|]. eexists; reflexivity.
    - simpl. rewrite Hlistener2. auto. }
  destruct (parse_URL env (redirectUri options)) as [url|] eqn:Hurl; [|apply Hearly].
  destruct (callback_port url) as [p|] eqn:Hport; [|apply Hearly].
  destruct (port_free env p); [|apply Hearly]. clear Hearly.
  destruct (receiver url (issued_state env w) (inbound env)) as [evs outcome] eqn:Hrec.
  assert (Hshape : forall post,
    attempt_events options env w r (EvOpen authUrl :: EvListen p :: evs ++ post) <->
    match outcome with
    | Throw e => post = [] /\ r = Throw e
    | Ret authCode =>
        (post = [] /\ exists e, r = Throw e) \/
        exists tokenEndpoint,
          post = [EvPost {| endpoint := tokenEndpoint;
                            params := exchange_params options authCode
                                        (issued_verifier options env w) |}]
    end).
  { intros post. split.
    - intros [[? _]|(ep' & cb & [= _ <-] & [[? _]|H])]; try discriminate.
      destruct H as (url' & p' & evs' & outcome' & post' & Hurl' & Hport' & Hrec' & Hcb & H).
      rewrite Hurl in Hurl'. injection Hurl' as <-. rewrite Hrec in Hrec'.
      injection Hrec' as <- <-. injection Hcb as _ Hpost.
      apply app_inv_head in Hpost. subst post'. exact H.
    - intros H. right. exists ep, (EvListen p :: evs ++ post). split; [reflexivity|].
      right. exists url, p, evs, outcome, post. repeat split; assumption. }
  destruct outcome as [authCode|e].
  2:{ intros [= <- <-]. exists dis, (EvOpen authUrl :: EvListen p :: evs ++ []).
      split; [simpl; rewrite Htrace2, ?app_nil_r, <- ?app_assoc; reflexivity|].
      split; [exact Hdis|]. split; [|reflexivity].
      apply Hshape. split; reflexivity. }
  destruct (JS.get_field cfg "token_endpoint") as [tep|].
  2:{ intros [= <- <-]. exists dis, (EvOpen authUrl :: EvListen p :: evs ++ []).
      split; [simpl; rewrite Htrace2, ?app_nil_r, <- ?app_assoc; reflexivity|].
      split; [exact Hdis|]. split; [|reflexivity].
      apply Hshape. left. split; [reflexivity|]. eexists; reflexivity. }
  match goal with |- exchangeCodeForToken _ _ _ _ _ ?w4 = _ -> _ =>
    destruct (exchange_spec options tep authCode (issued_verifier options env w) env w4)
      as [r' ->]
  end.
  intros [= <- <-]. eexists dis, (EvOpen authUrl :: EvListen p :: evs ++ [_]).
  split; [simpl; rewrite Htrace2, <- ?app_assoc; reflexivity|].
  split; [exact Hdis|]. split; [|reflexivity].
  apply Hshape. right. exists tep. reflexivity.
Qed.

Lemma attempt_opened (options : OAuthOptions) env w r rest :
  attempt_events options env w r rest ->
  opened rest = [] \/
  exists authorizationEndpoint cb,
    rest = EvOpen (buildAuthorizationUrl options authorizationEndpoint
                     (issued_state env w) (issued_challenge options env w)
                     (usePKCE options)) :: cb /\
    opened cb = [].
Proof.
  intros [[-> _]|(ep & cb & -> & H)]; [left; reflexivity|].
  right. exists ep, cb. split; [reflexivity|].
  destruct H as [[-> _]|(url & p & evs & outcome & post & _ & _ & Hrec & -> & H)];
    [reflexivity|].
  simpl. rewrite opened_app.
  pose proof (receiver_events url (issued_state env w) (inbound env)) as He.
  rewrite Hrec in He. simpl in He. apply receiver_events_silent in He as (_ & -> & _).
  destruct outcome as [authCode|e].
  - destruct H as [[-> _]|[tep ->]]; reflexivity.
  - destruct H as [-> _]. reflexivity.
Qed.

Lemma attempt_listened (options : OAuthOptions) env w r rest :
  attempt_events options env w r rest ->
  listened rest = [] \/
  exists url p target cb,
    parse_URL env (redirectUri options) = Some url /\
    callback_port url = Some p /\
    rest = EvOpen target :: cb /\ listened cb = [p].
Proof.
  intros [[-> _]|(ep & cb & -> & H)]; [left; reflexivity|].
  destruct H as [[-> _]|(url & p & evs & outcome & post & Hurl & Hport & Hrec & -> & H)];
    [left; reflexivity|].
  right. exists url, p. eexists; eexists. repeat split; try eassumption.
  simpl. rewrite listened_app.
  pose proof (receiver_events url (issued_state env w) (inbound env)) as He.
  rewrite Hrec in He. simpl in He. apply receiver_events_silent in He as (_ & _ & ->).
  destruct outcome as [authCode|e].
  - destruct H as [[-> _]|[tep ->]]; reflexivity.
  - destruct H as [-> _]. reflexivity.
Qed.

Lemma attempt_posted (options : OAuthOptions) env w r rest :
  attempt_events options env w r rest ->
  posted rest = [] \/
  exists tokenEndpoint authCode,
    authCode <> "" /\ In (EvSettle (Ret authCode)) rest /\
    posted rest = [ {| endpoint := tokenEndpoint;
                       params := exchange_params options authCode
                                   (issued_verifier options env w) |} ].
Proof.
  intros [[-> _]|(ep & cb & -> & H)]; [left; reflexivity|].
  destruct H as [[-> _]|(url & p & evs & outcome & post & _ & _ & Hrec & -> & H)];
    [left; reflexivity|].
  simpl. rewrite posted_app.
  pose proof (receiver_events url (issued_state env w) (inbound env)) as He.
  pose proof (receiver_shape url (issued_state env w) (inbound env))
    as (quiet & tail & Hshape & _ & _).
  pose proof (receiver_code url (issued_state env w) (inbound env)) as Hcode.
  rewrite Hrec in He, Hshape, Hcode. simpl in He, Hshape, Hcode.
  apply receiver_events_silent in He as (-> & _ & _).
  destruct outcome as [authCode|e].
  - destruct H as [[-> _]|[tep ->]]; [left; reflexivity|].
    right. exists tep, authCode. split; [apply Hcode; reflexivity|].
    split; [|reflexivity].
    right. right. apply in_or_app. left. rewrite Hshape.
    apply in_or_app. right. right. left. reflexivity.
  - destruct H as [-> _]. left. reflexivity.
Qed.

Lemma issued_verifier_length (options : OAuthOptions) env w :
  usePKCE options = true ->
  String.length (issued_verifier options env w) = 43%nat.
Proof.
  intros H. unfold issued_verifier. rewrite H.
  apply base64url_length_32. rewrite length_map, length_seq. reflexivity.
Qed.

Lemma exchange_params_spec (options : OAuthOptions) (authCode : string) env w :
  exchange_params options authCode (issued_verifier options env w) =
  [ ("grant_type", "authorization_code");
    ("code", authCode);
    ("client_id", clientId options);
    ("redirect_uri", redirectUri options);
    if JS.truthy_string (clientSecret options)
    then ("client_secret", default "" (clientSecret options))
    else ("code_verifier", issued_verifier options env w) ].
Proof.
  unfold exchange_params.
  destruct (JS.truthy_string (clientSecret options)) eqn:Hsecret; [reflexivity|].
  pose proof (issued_verifier_length options env w) as Hlen.
  unfold usePKCE in Hlen. rewrite Hsecret in Hlen. specialize (Hlen eq_refl).
  destruct (issued_verifier options env w); [discriminate|reflexivity].
Qed.

Lemma opened_params (options : OAuthOptions) (ep : JS.value) (state challenge : string) :
  challenge <> "" ->
  let target := buildAuthorizationUrl options ep state challenge true in
  searchParams_get (params target) "code_challenge" = Some challenge /\
  searchParams_get (params target) "code_challenge_method" = Some "S256".
Proof.
  intros Hne. unfold buildAuthorizationUrl.
  destruct (String.eqb_spec challenge ""); [contradiction|]. split; reflexivity.
Qed.

(** C1, as the code has it. In every login attempt the browser is opened
    while the listener is not bound; the listener is bound only afterwards,
    on the port of the redirect URI (3000 when it names none), and it is
    not bound any more when the attempt ends. *)
Theorem browser_opened_before_listener (options : OAuthOptions)
    (env : Env) (w : World) (r : Result JS.value) (w' : World) :
  listener w = None ->
  startOAuthFlow options env w = (r, w') ->
  listener w' = None /\
  exists evs,
    trace w' = trace w ++ evs /\
    opens_unbound false evs = true /\
    (listened evs = [] \/
     exists url p pre target post,
       parse_URL env (redirectUri options) = Some url /\
       callback_port url = Some p /\
       evs = pre ++ EvOpen target :: post /\
       listened pre = [] /\ opened pre = [] /\
       listened post = [p] /\ opened post = []).
Proof.
  intros Hunbound Hrun.
  destruct (attempt_shape options env w r w' Hrun) as (dis & rest & Htrace & Hdis & Hrest & Hl).
  split; [exact (Hl Hunbound)|].
  exists (dis ++ rest). split; [exact Htrace|].
  destruct (discovery_events_silent dis Hdis) as (_ & Hdo & Hdl).
  rewrite opens_unbound_discovery by exact Hdis.
  rewrite listened_app, Hdl. simpl.
  destruct (attempt_opened _ _ _ _ _ Hrest) as [Hnone|(ep & cb & -> & Hcb)].
  - split; [apply opens_unbound_no_open, Hnone|].
    destruct (attempt_listened _ _ _ _ _ Hrest) as [Hn|(url & p & target & cb & _ & _ & -> & _)];
      [left; exact Hn|discriminate].
  - split; [simpl; apply opens_unbound_no_open, Hcb|].
    destruct (attempt_listened _ _ _ _ _ Hrest)
      as [Hn|(url & p & target & cb' & Hurl & Hport & [= <- <-] & Hlisten)];
      [left; exact Hn|].
    right. exists url, p, dis. eexists. exists cb.
    repeat split; try eassumption.
Qed.

Lemma browser_opened_before_listener_witness :
  let env := Sample.offline
               [(1000, Sample.callback [("code", "abc"); ("state", Sample.issued_state)])] in
  let run := startOAuthFlow Sample.public_client env (initial_world 0) in
  listener (snd run) = None /\
  exists evs, trace (snd run) = evs /\ opens_unbound false evs = true.
Proof.
  intros env run.
  destruct (browser_opened_before_listener Sample.public_client env (initial_world 0)
              (fst run) (snd run) eq_refl eq_refl) as (Hl & evs & Htrace & Hopen & _).
  split; [exact Hl|]. exists evs. split; [exact Htrace|exact Hopen].
Defined.

(** C1 as stated fails: in a successful attempt the browser is opened
    first, with no listener bound, and port 3000 is bound only after. *)
Lemma browser_opened_while_unbound :
  let env := Sample.offline
               [(1000, Sample.callback [("code", "abc"); ("state", Sample.issued_state)])] in
  let run := startOAuthFlow Sample.public_client env (initial_world 0) in
  (exists tokens, fst run = Ret tokens) /\
  opens_bound false (trace (snd run)) = false /\
  exists pre target post,
    trace (snd run) = pre ++ EvOpen target :: post /\
    listened pre = [] /\ listened post = [3000].
Proof.
  intros env run. split; [eexists; reflexivity|]. split; [reflexivity|].
  eexists [_; _], _, _. split; [reflexivity|]. split; reflexivity.
Qed.

(** C4. Every token request of a login attempt carries, in this order,
    [grant_type=authorization_code], the code the receiver captured (not
    empty), [client_id], [redirect_uri] and one more parameter: the client
    secret when the credentials have a (non-empty) one, and otherwise the
    verifier of the attempt. So [client_secret] is present exactly when
    there is a secret, [code_verifier] exactly when there is none, and
    never both. *)
Theorem exchange_request_body (options : OAuthOptions)
    (env : Env) (w : World) (r : Result JS.value) (w' : World) :
  startOAuthFlow options env w = (r, w') ->
  exists evs,
    trace w' = trace w ++ evs /\
    forall target, In target (posted evs) ->
      (exists authCode,
          authCode <> "" /\ In (EvSettle (Ret authCode)) evs /\
          params target =
            [ ("grant_type", "authorization_code");
              ("code", authCode);
              ("client_id", clientId options);
              ("redirect_uri", redirectUri options);
              if JS.truthy_string (clientSecret options)
              then ("client_secret", default "" (clientSecret options))
              else ("code_verifier", issued_verifier options env w) ]) /\
      (JS.truthy_string (clientSecret options) = true ->
         searchParams_get (params target) "client_secret" = clientSecret options /\
         ~ In "code_verifier" (keys (params target))) /\
      (JS.truthy_string (clientSecret options) = false ->
         searchParams_get (params target) "code_verifier"
           = Some (issued_verifier options env w) /\
         issued_verifier options env w <> "" /\
         ~ In "client_secret" (keys (params target))) /\
      ~ (In "client_secret" (keys (params target)) /\
         In "code_verifier" (keys (params target))).
Proof.
  intros Hrun.
  destruct (attempt_shape options env w r w' Hrun) as (dis & rest & Htrace & Hdis & Hrest & _).
  exists (dis ++ rest). split; [exact Htrace|].
  intros target. rewrite posted_app.
  destruct (discovery_events_silent dis Hdis) as (-> & _ & _). simpl.
  destruct (attempt_posted _ _ _ _ _ Hrest) as [->|(tep & authCode & Hcode & Hsettled & ->)];
    [intros []|].
  intros [<-|[]]. cbn [params]. rewrite exchange_params_spec.
  split.
  { exists authCode. split; [exact Hcode|]. split; [|reflexivity].
    apply in_or_app. right. exact Hsettled. }
  destruct (JS.truthy_string (clientSecret options)) eqn:Hsecret; cbn.
  - split.
    { intros _. split.
      - destruct (clientSecret options); [reflexivity|discriminate].
      - intros [H|[H|[H|[H|[H|[]]]]]]; discriminate. }
    split; [discriminate|].
    intros [_ [H|[H|[H|[H|[H|[]]]]]]]; discriminate.
  - split; [discriminate|]. split.
    { intros _. split; [reflexivity|]. split.
      - pose proof (issued_verifier_length options env w) as Hlen.
        unfold usePKCE in Hlen. rewrite Hsecret in Hlen. specialize (Hlen eq_refl).
        intros Heq. rewrite Heq in Hlen. discriminate.
      - intros [H|[H|[H|[H|[H|[]]]]]]; discriminate. }
    intros [[H|[H|[H|[H|[H|[]]]]]] _]; discriminate.
Qed.

Lemma exchange_request_body_witness :
  let env := Sample.offline
               [(1000, Sample.callback [("code", "abc"); ("state", Sample.issued_state)])] in
  let run := startOAuthFlow Sample.public_client env (initial_world 0) in
  exists target,
    posted (trace (snd run)) = [target] /\
    searchParams_get (params target) "code"  = Some "abc" /\
    searchParams_get (params target) "code_verifier"
      = Some (issued_verifier Sample.public_client env (initial_world 0)) /\
    ~ In "client_secret" (keys (params target)).
Proof.
  intros env run.
  destruct (exchange_request_body Sample.public_client env (initial_world 0)
              (fst run) (snd run) eq_refl) as (evs & Htrace & Hbody).
  simpl in Htrace. rewrite <- Htrace in Hbody.
  eexists. split; [reflexivity|].
  match goal with |- context [params ?t] =>
    destruct (Hbody t (or_introl eq_refl)) as (_ & _ & Hpkce & _)
  end.
  destruct (Hpkce eq_refl) as (Hverifier & _ & Hnone).
  split; [reflexivity|]. split; [exact Hverifier|exact Hnone].
Defined.

(** C5. A request on the redirect path with no (or an empty) [error]
    parameter whose [state] is absent or is not the state issued for the
    attempt makes the handler stop the listener and reject with the fixed
    state-mismatch error; neither that message nor the page shown to the
    browser contains the issued state. When such a request is handled
    while the receiver listens, the attempt fails, with that error once the
    listener was bound, and no token request is ever made. *)
Theorem state_mismatch_rejected (options : OAuthOptions) (url : URL) (req : Request)
    (env : Env) (w : World) (r : Result JS.value) (w' : World) :
  req_pathname req = pathname url ->
  JS.truthy_string (searchParams_get (req_query req) "error") = false ->
  searchParams_get (req_query req) "state" <> Some (issued_state env w) ->
  parse_URL env (redirectUri options) = Some url ->
  handled_while_listening url (issued_state env w) (inbound env) req ->
  startOAuthFlow options env w = (r, w') ->
  (forall env0 w0,
      handle url (issued_state env w) req env0 w0 =
        (Ret (Some (Throw (JsError "State mismatch - possible CSRF attack"))),
         logs [ EvStop;
                EvSettle (Throw (JsError "State mismatch - possible CSRF attack"));
                EvRespond 400 "State mismatch. You can close this window." ]
              (set_listener None w0))) /\
  Encoding.includes "State mismatch - possible CSRF attack" (issued_state env w) = false /\
  Encoding.includes "State mismatch. You can close this window." (issued_state env w) = false /\
  (exists e, r = Throw e) /\
  exists evs,
    trace w' = trace w ++ evs /\
    posted evs = [] /\
    (listened evs <> [] ->
     r = Throw (JsError "State mismatch - possible CSRF attack")).
Proof.
  intros Hpath Herror Hstate Hurl Hhandled Hrun.
  assert (Hdiffers : differs (searchParams_get (req_query req) "state") (issued_state env w) = true).
  { unfold differs. destruct (searchParams_get (req_query req) "state") as [s|]; [|reflexivity].
    destruct (String.eqb_spec s (issued_state env w)) as [->|]; [contradiction|reflexivity]. }
  assert (Hv : verdict url (issued_state env w) req = Some (Throw state_mismatch)).
  { unfold verdict. rewrite Hpath, String.eqb_refl, Herror, Hdiffers. reflexivity. }
  assert (Hf : farewell url (issued_state env w) req =
               EvRespond 400 "State mismatch. You can close this window.").
  { unfold farewell. rewrite Herror, Hdiffers. reflexivity. }
  split. { intros env0 w0. rewrite handle_spec, Hv, Hf. reflexivity. }
  split. { apply issued_state_not_shown. left. reflexivity. }
  split. { apply issued_state_not_shown. right. reflexivity. }
  destruct (attempt_shape options env w r w' Hrun) as (dis & rest & Htrace & Hdis & Hrest & _).
  destruct (discovery_events_silent dis Hdis) as (Hdp & _ & Hdl).
  destruct (receiver_handled _ _ _ _ _ Hhandled Hv) as (quiet & Hrec & _).
  assert (Hfail : (exists e, r = Throw e) /\ posted rest = [] /\
                  (listened rest <> [] -> r = Throw state_mismatch)).
  { destruct Hrest as [[-> He]|(ep & cb & -> & H)].
    { split; [exact He|]. split; [reflexivity|]. intros H. contradiction. }
    destruct H as [[-> He]|(url' & p & evs & outcome & post & Hurl' & _ & Hrec' & -> & H)].
    { split; [exact He|]. split; [reflexivity|]. intros H. contradiction. }
    rewrite Hurl in Hurl'. injection Hurl' as <-.
    rewrite Hrec in Hrec'. injection Hrec' as <- <-.
    destruct H as [-> ->]. split; [eexists; reflexivity|]. split; [|reflexivity].
    pose proof (receiver_events url (issued_state env w) (inbound env)) as He.
    rewrite Hrec in He. simpl in He.
    simpl. rewrite app_nil_r. apply (receiver_events_silent _ He). }
  destruct Hfail as (He & Hposted & Hlistened).
  split; [exact He|].
  exists (dis ++ rest). split; [exact Htrace|].
  rewrite posted_app, listened_app, Hdp, Hdl, Hposted. split; [reflexivity|exact Hlistened].
Qed.

Lemma state_mismatch_rejected_witness :
  let req := Sample.callback [("code", "abc"); ("state", "0b30557a9fc4e90e33587da2c7ec1137")] in
  let env := Sample.online [(1000, req)] in
  let run := startOAuthFlow Sample.confidential_client env (initial_world 0) in
  fst run = Throw (JsError "State mismatch - possible CSRF attack") /\
  posted (trace (snd run)) = [].
Proof.
  intros req env run.
  assert (Hstate : searchParams_get (req_query req) "state"
                   <> Some (issued_state env (initial_world 0)))
    by (vm_compute; discriminate).
  assert (Hhandled : handled_while_listening {| port := "3000"; pathname := "/callback" |}
                       (issued_state env (initial_world 0)) (inbound env) req).
  { exists [], 1000, []. split; [reflexivity|]. split; [reflexivity|constructor]. }
  destruct (state_mismatch_rejected Sample.confidential_client
              {| port := "3000"; pathname := "/callback" |} req env (initial_world 0)
              (fst run) (snd run) eq_refl eq_refl Hstate eq_refl Hhandled eq_refl)
    as (_ & _ & _ & _ & evs & Htrace & Hposted & Hbound).
  simpl in Htrace. rewrite <- Htrace in Hposted, Hbound.
  split; [apply Hbound; discriminate|exact Hposted].
Defined.

(** C7. In a login attempt without client secret the verifier is the
    URL-safe, unpadded base64 form of 32 bytes drawn from the random
    source (43 characters of the URL-safe alphabet); for every verifier
    string the challenge is the URL-safe, unpadded base64 form of the
    SHA-256 digest of the bytes of the string; the authorization URL
    carries the challenge of the attempt's verifier with method [S256], and
    the token request carries that very verifier. *)
Theorem pkce_verifier_and_challenge (options : OAuthOptions)
    (env : Env) (w : World) (r : Result JS.value) (w' : World) :
  usePKCE options = true ->
  startOAuthFlow options env w = (r, w') ->
  let random := map (entropy env) (seq (drawn w + 16) 32) in
  let verifier := issued_verifier options env w in
  length random = 32%nat /\
  verifier = Encoding.toString_base64url random /\
  String.length verifier = 43%nat /\
  url_safe verifier /\
  (forall v : string,
      generateCodeChallenge v =
      Encoding.base64 Encoding.url_alphabet false
        (SHA256.digest (Encoding.TextEncoder_encode v))) /\
  exists evs,
    trace w' = trace w ++ evs /\
    (forall target, In target (opened evs) ->
        searchParams_get (params target) "code_challenge"
          = Some (generateCodeChallenge verifier) /\
        searchParams_get (params target) "code_challenge_method" = Some "S256") /\
    (forall target, In target (posted evs) ->
        searchParams_get (params target) "code_verifier" = Some verifier).
Proof.
  intros Hpkce Hrun random verifier.
  split; [subst random; rewrite length_map, length_seq; reflexivity|].
  split; [subst verifier random; unfold issued_verifier; rewrite Hpkce; reflexivity|].
  split; [apply issued_verifier_length, Hpkce|].
  split; [subst verifier; unfold issued_verifier; rewrite Hpkce; apply base64url_url_safe|].
  split; [exact generateCodeChallenge_spec|].
  destruct (attempt_shape options env w r w' Hrun) as (dis & rest & Htrace & Hdis & Hrest & _).
  destruct (discovery_events_silent dis Hdis) as (Hdp & Hdo & _).
  exists (dis ++ rest). split; [exact Htrace|].
  rewrite opened_app, posted_app, Hdp, Hdo. simpl. split.
  - intros target Hin.
    destruct (attempt_opened _ _ _ _ _ Hrest) as [Hnone|(ep & cb & -> & Hcb)].
    { rewrite Hnone in Hin. destruct Hin. }
    simpl in Hin. rewrite Hcb in Hin. destruct Hin as [<-|[]].
    rewrite Hpkce. unfold issued_challenge. rewrite Hpkce.
    apply opened_params. intros Heq.
    pose proof (challenge_length verifier) as Hlen. fold verifier in Heq.
    rewrite Heq in Hlen. discriminate.
  - intros target Hin.
    destruct (attempt_posted _ _ _ _ _ Hrest) as [Hnone|(tep & authCode & _ & _ & Hp)].
    { rewrite Hnone in Hin. destruct Hin. }
    rewrite Hp in Hin. destruct Hin as [<-|[]].
    cbn [params]. rewrite exchange_params_spec.
    unfold usePKCE in Hpkce. apply negb_true_iff in Hpkce. rewrite Hpkce. reflexivity.
Qed.

Lemma pkce_verifier_and_challenge_witness :
  let env := Sample.offline
               [(1000, Sample.callback [("code", "abc"); ("state", Sample.issued_state)])] in
  let run := startOAuthFlow Sample.public_client env (initial_world 0) in
  let verifier := issued_verifier Sample.public_client env (initial_world 0) in
  verifier = "W4Clyu8UOV6DqM3yFzxhhqvQ9Ro_ZImu0_gdQmeMsdY" /\
  String.length verifier = 43%nat /\
  exists opening posting,
    opened (trace (snd run)) = [opening] /\
    posted (trace (snd run)) = [posting] /\
    searchParams_get (params opening) "code_challenge"
      = Some (generateCodeChallenge verifier) /\
    searchParams_get (params posting) "code_verifier" = Some verifier.
Proof.
  intros env run verifier.
  destruct (pkce_verifier_and_challenge Sample.public_client env (initial_world 0)
              (fst run) (snd run) eq_refl eq_refl)
    as (_ & _ & Hlen & _ & _ & evs & Htrace & Hopened & Hposted).
  simpl in Htrace. rewrite <- Htrace in Hopened, Hposted.
  split; [vm_compute; reflexivity|]. split; [exact Hlen|].
  eexists; eexists. split; [reflexivity|]. split; [reflexivity|].
  split.
  - match goal with |- context [params ?t] => apply (Hopened t (or_introl eq_refl)) end.
  - match goal with |- context [params ?t] => apply (Hposted t (or_introl eq_refl)) end.
Defined.

(** ** Further properties of the code *)

(** *** The metadata cache *)

(** A successful discovery stores the document under its domain with the
    time at which the fetch ended, touches no other entry, and from then
    on every call for that domain made less than 24 hours after that time
    returns the stored document without looking at the network. *)
Theorem discovery_cached_then_reused (D : string) (env : Env) (w : World) (cfg : JS.value) :
  fresh_entry D w = None ->
  discovery_document (http_get env (wellKnownUrl D)) = Some cfg ->
  exists w1,
    discoverOpenIDConfiguration D env w = (Ret cfg, w1) /\
    configCache w1 !! D =
      Some {| config := cfg; timestamp := clock w + http_get_ms env |} /\
    (forall D', D' <> D -> configCache w1 !! D' = configCache w !! D') /\
    (forall env2 w2,
        configCache w2 !! D = configCache w1 !! D ->
        clock w2 - (clock w + http_get_ms env) < 24 * 60 * 60 * 1000 ->
        discoverOpenIDConfiguration D env2 w2 = (Ret cfg, w2)).
Proof.
  intros Hfresh Hdoc. rewrite discover_spec, Hfresh.
  pose proof (refetch_spec D env w) as Hr. rewrite Hdoc in Hr.
  exists (discovered D cfg env w). split; [exact Hr|].
  assert (Hentry : configCache (discovered D cfg env w) !! D =
                   Some {| config := cfg; timestamp := clock w + http_get_ms env |}).
  { unfold discovered. simpl. apply lookup_insert_eq. }
  split; [exact Hentry|]. split.
  - intros D' Hne. unfold discovered. simpl. apply lookup_insert_ne. congruence.
  - intros env2 w2 Hsame Hage.
    assert (Hhit : fresh_entry D w2 =
                   Some {| config := cfg; timestamp := clock w + http_get_ms env |}).
    { apply fresh_entry_Some. rewrite Hsame, Hentry. split; [reflexivity|]. simpl. lia. }
    rewrite discover_spec, Hhit. reflexivity.
Qed.

Lemma discovery_cached_then_reused_witness :
  let first := discoverOpenIDConfiguration "acme.example" (Sample.online []) (initial_world 0) in
  let later := set_clock 86400039 (snd first) in
  fst first = Ret Sample.provider_document /\
  discoverOpenIDConfiguration "acme.example" (Sample.offline []) later =
    (Ret Sample.provider_document, later).
Proof.
  intros first later.
  destruct (discovery_cached_then_reused "acme.example" (Sample.online []) (initial_world 0)
              Sample.provider_document eq_refl eq_refl) as (w1 & Hrun & _ & _ & Hreuse).
  assert (Hfirst : first = (Ret Sample.provider_document, w1)) by exact Hrun.
  split; [rewrite Hfirst; reflexivity|].
  apply Hreuse.
  - unfold later. rewrite Hfirst. reflexivity.
  - simpl. lia.
Defined.

(** [clearConfigCache(D)] with a non-empty [D] forgets the entry of [D]
    and no other, so the next discovery for [D] fetches even when the entry
    was fresh; without argument, and also with the empty string, it forgets
    every entry. It never throws and changes nothing but the cache. *)
Theorem clearConfigCache_forgets (domain : option string) (env : Env) (w : World) :
  exists w1,
    clearConfigCache domain env w = (Ret tt, w1) /\
    clock w1 = clock w /\ trace w1 = trace w /\ listener w1 = listener w /\
    token_file w1 = token_file w /\
    match domain with
    | Some (String c rest as D) =>
        fresh_entry D w1 = None /\
        (forall D', D' <> D -> configCache w1 !! D' = configCache w !! D') /\
        (forall env2, fetches (trace (snd (discoverOpenIDConfiguration D env2 w1))) =
                      fetches (trace w) ++ [wellKnownUrl D])
    | _ => configCache w1 = ∅ /\ forall D', fresh_entry D' w1 = None
    end.
Proof.
  assert (Hall : forall D', fresh_entry D' (set_configCache ∅ w) = None).
  { intros D'. unfold fresh_entry. simpl. rewrite lookup_empty. reflexivity. }
  unfold clearConfigCache. run.
  destruct domain as [[|c rest]|]; simpl.
  - exists (set_configCache ∅ w). repeat (split; [reflexivity|]). exact Hall.
  - exists (set_configCache (delete (String c rest) (configCache w)) w).
    repeat (split; [reflexivity|]).
    assert (Hgone : fresh_entry (String c rest)
                      (set_configCache (delete (String c rest) (configCache w)) w) = None).
    { unfold fresh_entry. simpl. rewrite lookup_delete_eq. reflexivity. }
    split; [exact Hgone|]. split.
    + intros D' Hne. apply lookup_delete_ne. congruence.
    + intros env2.
      destruct (discover_without_fresh_entry (String c rest) env2 _ Hgone)
        as (cfg & w2 & tail & Hrun & Htrace & Htail).
      rewrite Hrun. simpl. rewrite Htrace, fetches_app. simpl. rewrite Htail. reflexivity.
  - exists (set_configCache ∅ w). repeat (split; [reflexivity|]). exact Hall.
Qed.

(** *** The token file *)

Lemma loadToken_stored (env : Env) (w : World) (t : StoredToken) :
  token_file w = File (Some t) ->
  loadToken env w =
    if JS.gt (JS.sub (JS.Num (clock w)) (stored_at t))
             (JS.mul (expires_in (token t)) (JS.Num 1000))
    then (Ret None, set_token_file NoFile w)
    else (Ret (Some t), w).
Proof.
  intros Hfile.
  unfold loadToken, fs_readFile, JSON_parse, Date_now, clearToken, fs_unlink. run.
  rewrite Hfile. simpl.
  destruct (JS.gt _ _); simpl; [rewrite Hfile|]; reflexivity.
Qed.



(** A stored token whose [expires_in] is missing or whose [stored_at] is
    not a date never expires: both comparisons are made on [NaN], so
    [loadToken] returns the record at every time and keeps the file. *)
Theorem loadToken_without_lifetime (env : Env) (w : World) (t : StoredToken) :
  token_file w = File (Some t) ->
  expires_in (token t) = JS.NaN \/ stored_at t = JS.NaN ->
  forall now, loadToken env (set_clock now w) = (Ret (Some t), set_clock now w).
Proof.
  intros Hfile Hnan now.
  rewrite (loadToken_stored env (set_clock now w) t Hfile). simpl.
  destruct Hnan as [-> | ->]; [destruct (stored_at t)|]; reflexivity.
Qed.

Lemma loadToken_without_lifetime_witness :
  let t := {| token := {| access_token := "at_1"; id_token := None;
                          token_type := "Bearer"; expires_in := JS.NaN |};
              token_domain := "acme.example"; stored_at := JS.Num 0 |} in
  let w := set_token_file (File (Some t)) (initial_world 0) in
  loadToken (Sample.offline []) (set_clock 4102444800000 w) =
    (Ret (Some t), set_clock 4102444800000 w).
Proof.
  intros t w.
  exact (loadToken_without_lifetime (Sample.offline []) w t eq_refl
           (or_introl eq_refl) 4102444800000).
Defined.

Lemma loadToken_unusable (env : Env) (w : World) :
  token_file w = NoFile \/ token_file w = File None ->
  loadToken env w = (Ret None, w).
Proof.
  intros Hfile.
  unfold loadToken, fs_readFile, JSON_parse, Date_now, clearToken, fs_unlink. run.
  destruct Hfile as [-> | ->]; reflexivity.
Qed.

(** With no token file, or one whose content cannot be used, [loadToken]
    returns [null] without throwing and leaves everything as it was: an
    unusable file is not removed, and stays unusable for every later
    call. *)
Theorem loadToken_without_usable_file (env : Env) (w : World) :
  token_file w = NoFile \/ token_file w = File None ->
  loadToken env w = (Ret None, w) /\
  forall env2 now,
    loadToken env2 (set_clock now (snd (loadToken env w))) = (Ret None, set_clock now w).
Proof.
  intros Hfile. pose proof (loadToken_unusable env w Hfile) as Hrun.
  split; [exact Hrun|]. intros env2 now. rewrite Hrun.
  apply loadToken_unusable. exact Hfile.
Qed.

Lemma loadToken_without_usable_file_witness :
  loadToken (Sample.offline []) (set_token_file (File None) (initial_world 0)) =
  (Ret None, set_token_file (File None) (initial_world 0)).
Proof.
  exact (proj1 (loadToken_without_usable_file (Sample.offline [])
                  (set_token_file (File None) (initial_world 0)) (or_intror eq_refl))).
Defined.

(** [clearToken] never throws, whether there is a token file or not;
    after it there is none, nothing else has changed, [loadToken] returns
    [null], and clearing again changes nothing. *)
Theorem clearToken_logs_out (env : Env) (w : World) :
  let cleared := set_token_file NoFile w in
  (clearToken env w = (Ret tt, cleared) \/
   token_file w = NoFile /\ clearToken env w = (Ret tt, w)) /\
  token_file (snd (clearToken env w)) = NoFile /\
  (forall env2 now,
      loadToken env2 (set_clock now (snd (clearToken env w))) =
        (Ret None, set_clock now (snd (clearToken env w)))) /\
  clearToken env (snd (clearToken env w)) = (Ret tt, snd (clearToken env w)).
Proof.
  intros cleared.
  assert (Hrun : clearToken env w =
                 (Ret tt, match token_file w with NoFile => w | File _ => cleared end)).
  { unfold clearToken, fs_unlink. run. destruct (token_file w); reflexivity. }
  assert (Hgone : token_file (snd (clearToken env w)) = NoFile).
  { rewrite Hrun. simpl. destruct (token_file w) eqn:Hf; [exact Hf|reflexivity]. }
  split.
  { rewrite Hrun. destruct (token_file w); [right; split; reflexivity|left; reflexivity]. }
  split; [exact Hgone|]. split.
  - intros env2 now. apply loadToken_unusable. left. exact Hgone.
  - unfold clearToken at 1, fs_unlink. run. rewrite Hgone. reflexivity.
Qed.

(** *** The callback receiver, further *)




(** A request for another path than that of the redirect URI, whatever
    its parameters, and a request on that path that has the expected state
    but no code (or an empty one) and no error, is answered 404 and
    changes nothing else: the listener stays bound, the promise pending,
    and the receiver goes on with the next request. *)
Theorem request_ignored (url : URL) (expectedState : string) (req : Request)
    (env : Env) (w : World) :
  req_pathname req <> pathname url \/
  (JS.truthy_string (searchParams_get (req_query req) "error") = false /\
   searchParams_get (req_query req) "state" = Some expectedState /\
   JS.truthy_string (searchParams_get (req_query req) "code") = false) ->
  handle url expectedState req env w = (Ret None, logs [EvRespond 404 "Not found"] w) /\
  forall at_ms later,
    at_ms < TIMEOUT_MS ->
    event_loop url expectedState ((at_ms, req) :: later) env w =
    event_loop url expectedState later env (logs [EvRespond 404 "Not found"] w).
Proof.
  intros Hcond.
  assert (Hv : verdict url expectedState req = None).
  { unfold verdict. destruct Hcond as [Hpath|(Herror & Hstate & Hcode)].
    - destruct (String.eqb_spec (req_pathname req) (pathname url)); [contradiction|reflexivity].
    - rewrite Herror, Hstate, Hcode. unfold differs. rewrite String.eqb_refl. simpl.
      destruct (String.eqb _ _); reflexivity. }
  assert (Hhandle : handle url expectedState req env w =
                    (Ret None, logs [EvRespond 404 "Not found"] w)).
  { rewrite handle_spec, Hv. reflexivity. }
  split; [exact Hhandle|].
  intros at_ms later Hat. cbn [event_loop].
  apply Z.ltb_lt in Hat. rewrite Hat. unfold bind at 1. rewrite Hhandle. reflexivity.
Qed.

Lemma request_ignored_witness :
  let url := {| port := "3000"; pathname := "/callback" |} in
  let probe := {| req_pathname := "/favicon.ico";
                  req_query := [("error", "access_denied"); ("code", "abc")] |} in
  let good := Sample.callback [("code", "abc"); ("state", "expected")] in
  fst (waitForCallback "http://localhost:3000/callback" "expected"
         (Sample.offline [(10, probe); (20, Sample.callback [("state", "expected")]); (30, good)])
         (initial_world 0)) = Ret "abc" /\
  handle url "expected" probe (Sample.offline []) (initial_world 0) =
    (Ret None, logs [EvRespond 404 "Not found"] (initial_world 0)).
Proof.
  intros url probe good. split; [reflexivity|].
  refine (proj1 (request_ignored url "expected" probe (Sample.offline []) (initial_world 0) _)).
  left. discriminate.
Defined.



(** *** The login attempt, further *)

Lemma url_alphabet_plain (c : ascii) :
  In c (list_ascii_of_string Encoding.url_alphabet) ->
  c <> "+"%char /\ c <> "/"%char /\ c <> "="%char.
Proof.
  simpl. intros H.
  repeat (destruct H as [<-|H]; [repeat split; discriminate|]). destruct H.
Qed.

(** Whatever the verifier string, the empty one included, its challenge
    has 43 characters, all of the URL-safe base64 alphabet: the three
    replacements leave no [+], [/] or [=] behind. *)
Theorem challenge_is_url_safe (verifier : string) :
  String.length (generateCodeChallenge verifier) = 43%nat /\
  url_safe (generateCodeChallenge verifier) /\
  Forall (fun c => c <> "+"%char /\ c <> "/"%char /\ c <> "="%char)
         (list_ascii_of_string (generateCodeChallenge verifier)).
Proof.
  split; [apply challenge_length|].
  assert (Hsafe : url_safe (generateCodeChallenge verifier)).
  { rewrite generateCodeChallenge_spec. apply base64url_url_safe. }
  split; [exact Hsafe|].
  unfold url_safe in Hsafe. eapply Forall_impl; [exact Hsafe|].
  intros c. apply url_alphabet_plain.
Qed.

Lemma length_append (a b : string) :
  String.length (a +:+ b) = (String.length a + String.length b)%nat.
Proof.
  induction a as [|c a IH]; [reflexivity|].
  change (S (String.length (a +:+ b)) = S (String.length a + String.length b)).
  rewrite IH. reflexivity.
Qed.

Lemma hex_length (bs : list byte) :
  String.length (Encoding.toString_hex bs) = (2 * length bs)%nat.
Proof.
  induction bs as [|b bs IH]; [reflexivity|].
  change (Encoding.toString_hex (b :: bs))
    with (Encoding.hex_of_byte b +:+ Encoding.toString_hex bs).
  rewrite length_append, IH. cbn [length]. unfold Encoding.hex_of_byte.
  cbv zeta. cbn [String.length]. lia.
Qed.

(** Every authorization URL a login attempt opens carries exactly
    [response_type=code], the client id, the redirect URI, the state and
    [scope=profile email], followed by the challenge and [S256] when there
    is no client secret and by nothing when there is one. The state is the
    32 hexadecimal digits the receiver of that attempt then insists on, and
    an attempt opens at most one URL. *)
Theorem authorization_request (options : OAuthOptions)
    (env : Env) (w : World) (r : Result JS.value) (w' : World) :
  startOAuthFlow options env w = (r, w') ->
  String.length (issued_state env w) = 32%nat /\
  exists evs,
    trace w' = trace w ++ evs /\
    (length (opened evs) <= 1)%nat /\
    forall target, In target (opened evs) ->
      params target =
        [ ("response_type", "code");
          ("client_id", clientId options);
          ("redirect_uri", redirectUri options);
          ("state", issued_state env w);
          ("scope", "profile email") ] ++
        (if JS.truthy_string (clientSecret options) then []
         else [ ("code_challenge", generateCodeChallenge (issued_verifier options env w));
                ("code_challenge_method", "S256") ]).
Proof.
  intros Hrun. split.
  { unfold issued_state. rewrite hex_length, length_map, length_seq. reflexivity. }
  destruct (attempt_shape options env w r w' Hrun) as (dis & rest & Htrace & Hdis & Hrest & _).
  destruct (discovery_events_silent dis Hdis) as (_ & Hdo & _).
  exists (dis ++ rest). split; [exact Htrace|].
  rewrite opened_app, Hdo. simpl.
  destruct (attempt_opened _ _ _ _ _ Hrest) as [->|(ep & cb & -> & Hcb)].
  { split; [simpl; lia|]. intros target []. }
  simpl. rewrite Hcb. split; [simpl; lia|].
  intros target [<-|[]].
  unfold buildAuthorizationUrl, issued_challenge, usePKCE.
  destruct (JS.truthy_string (clientSecret options)); [reflexivity|]. simpl.
  pose proof (challenge_length (issued_verifier options env w)) as Hlen.
  destruct (generateCodeChallenge (issued_verifier options env w)); [discriminate|].
  reflexivity.
Qed.

Lemma authorization_request_witness :
  let env := Sample.online [] in
  let run := startOAuthFlow Sample.confidential_client env (initial_world 0) in
  exists target,
    opened (trace (snd run)) = [target] /\
    keys (params target) = ["response_type"; "client_id"; "redirect_uri"; "state"; "scope"].
Proof.
  intros env run.
  destruct (authorization_request Sample.confidential_client env (initial_world 0)
              (fst run) (snd run) eq_refl) as (_ & evs & Htrace & _ & Hparams).
  simpl in Htrace. rewrite <- Htrace in Hparams.
  eexists. split; [reflexivity|].
  match goal with |- context [params ?t] => rewrite (Hparams t (or_introl eq_refl)) end.
  reflexivity.
Defined.

(** Every login attempt, however it ends, consumes 16 random bytes for
    the state and, without client secret, 32 more for the verifier; so the
    next attempt draws its state and verifier from bytes no earlier attempt
    has seen. *)
Theorem attempt_consumes_fresh_bytes (options : OAuthOptions)
    (env : Env) (w : World) (r : Result JS.value) (w' : World) :
  startOAuthFlow options env w = (r, w') ->
  drawn w' = (drawn w + 16 + (if JS.truthy_string (clientSecret options) then 0 else 32))%nat /\
  issued_state env w' =
    Encoding.toString_hex
      (map (entropy env)
           (seq (drawn w + 16 + (if JS.truthy_string (clientSecret options) then 0 else 32)) 16)).
Proof.
  intros Hrun.
  assert (Hdrawn : drawn w' =
    (drawn w + 16 + (if JS.truthy_string (clientSecret options) then 0 else 32))%nat).
  { rewrite startOAuthFlow_spec in Hrun.
    destruct (discover_frame (domain options) env w)
      as (cfg & w1 & dis & Hd & Hdrawn & _).
    rewrite Hd in Hrun. cbv zeta in Hrun.
    assert (H2 : drawn (drawn_for options w1) =
      (drawn w + 16 + (if JS.truthy_string (clientSecret options) then 0 else 32))%nat).
    { unfold drawn_for, usePKCE. destruct (JS.truthy_string (clientSecret options));
        simpl; rewrite Hdrawn; lia. }
    destruct (JS.get_field cfg "authorization_endpoint") as [ep|];
      [|injection Hrun as _ <-; exact H2].
    destruct (browser_spawns env); [|injection Hrun as _ <-; exact H2].
    rewrite waitForCallback_spec in Hrun.
    destruct (parse_URL env (redirectUri options)) as [url|];
      [|injection Hrun as _ <-; exact H2].
    destruct (callback_port url) as [p|]; [|injection Hrun as _ <-; exact H2].
    destruct (port_free env p); [|injection Hrun as _ <-; exact H2].
    destruct (receiver url (issued_state env w1) (inbound env)) as [evs [authCode|e]];
      [|injection Hrun as _ <-; exact H2].
    destruct (JS.get_field cfg "token_endpoint") as [tep|];
      [|injection Hrun as _ <-; exact H2].
    match type of Hrun with exchangeCodeForToken _ _ _ ?v _ ?w4 = _ =>
      destruct (exchange_spec options tep authCode v env w4) as [r' Hx]
    end.
    rewrite Hx in Hrun. injection Hrun as _ <-. exact H2. }
  split; [exact Hdrawn|]. unfold issued_state. rewrite Hdrawn. reflexivity.
Qed.

Lemma attempt_consumes_fresh_bytes_witness :
  let env := Sample.offline [] in
  let run := startOAuthFlow Sample.public_client env (initial_world 0) in
  drawn (snd run) = 48%nat.
Proof.
  intros env run.
  exact (proj1 (attempt_consumes_fresh_bytes Sample.public_client env (initial_world 0)
                  (fst run) (snd run) eq_refl)).
Defined.




(** ** The rest of the command-line client *)

Ltac prun :=
  unfold and_then, pure, raise, attempt, machine, services, update, lift, print; simpl.

(** *** Registrations on disk *)



Lemma own_property_drop_key (props : list (string * JS.value)) (k : string) :
  JS.own_property (drop_key props k) k = None.
Proof.
  induction props as [|[k' v] props IH]; simpl; [reflexivity|].
  destruct (String.eqb k' k) eqn:Hk; simpl; [exact IH|]. rewrite Hk. exact IH.
Qed.

Lemma own_property_drop_key_other (props : list (string * JS.value)) (k k' : string) :
  k' <> k ->
  JS.own_property (drop_key props k) k' = JS.own_property props k'.
Proof.
  intros Hne. induction props as [|[k0 v] props IH]; simpl; [reflexivity|].
  destruct (String.eqb_spec k0 k) as [->|Hk]; simpl.
  - destruct (String.eqb_spec k k'); [congruence|exact IH].
  - destruct (String.eqb k0 k'); [reflexivity|exact IH].
Qed.

Lemma loadClientData_spec (domain : string) sv m :
  loadClientData domain sv m = (Ret (registered domain m), m).
Proof.
  unfold loadClientData, read_clients, parse_clients, field, registered. prun.
  destruct (clients_file m) as [|[data|]]; simpl; try reflexivity.
  destruct (JS.get_field data domain); reflexivity.
Qed.

Lemma saveClientData_spec (domain : string) (clientData : JS.value) sv m :
  saveClientData domain clientData sv m =
  (Ret tt,
   match assign (existing m) domain clientData with
   | Some data => set_clients_file (Clients (Some data)) m
   | None => record_line "Warning: Could not save client data locally" m
   end).
Proof.
  unfold saveClientData, read_clients, parse_clients, write_clients, existing. prun.
  destruct (clients_file m) as [|[data|]]; simpl; try reflexivity.
  destruct (assign data domain clientData); reflexivity.
Qed.

Lemma deleteClientData_spec (domain : string) sv m :
  deleteClientData domain sv m =
  (Ret tt,
   match clients_file m with
   | Clients (Some data) =>
       match unset data domain with
       | Some data' => set_clients_file (Clients (Some data')) m
       | None => m
       end
   | _ => m
   end).
Proof.
  unfold deleteClientData, read_clients, parse_clients, write_clients. prun.
  destruct (clients_file m) as [|[data|]]; simpl; try reflexivity.
  destruct (unset data domain); reflexivity.
Qed.




(** Deleting the registration of a domain never throws, makes no
    request and prints nothing. On a machine without clients file, with
    one that is not JSON, or with the object an earlier save wrote,
    [loadClientData] afterwards returns [null] for that domain and, for
    every other domain, what it returned before; where there was no file
    none is created, and a file that is not JSON is left as it is. *)
Theorem registration_deleted (domain : string) (sv : Services) (m : Machine) :
  usual_clients_file m ->
  ~ In domain inherited_names ->
  exists m',
    deleteClientData domain sv m = (Ret tt, m') /\
    world m' = world m /\ calls m' = calls m /\ console m' = console m /\
    (clients_file m = NoClients \/ clients_file m = Clients None -> m' = m) /\
    (forall sv2, loadClientData domain sv2 m' = (Ret JS.Null, m')) /\
    (forall other sv2,
        other <> domain -> ~ In other inherited_names ->
        fst (loadClientData other sv2 m') = fst (loadClientData other sv2 m)).
Proof.
  intros Husual _. rewrite deleteClientData_spec.
  destruct Husual as [Hf | [Hf | [props Hf]]]; rewrite Hf; simpl.
  - exists m. do 5 (split; [reflexivity|]). split.
    + intros sv2. rewrite loadClientData_spec. unfold registered. rewrite Hf. reflexivity.
    + reflexivity.
  - exists m. do 5 (split; [reflexivity|]). split.
    + intros sv2. rewrite loadClientData_spec. unfold registered. rewrite Hf. reflexivity.
    + reflexivity.
  - eexists. do 4 (split; [reflexivity|]). split.
    { intros [H|H]; discriminate. }
    split.
    + intros sv2. rewrite loadClientData_spec. unfold registered. simpl.
      rewrite own_property_drop_key. reflexivity.
    + intros other sv2 Hne _. rewrite !loadClientData_spec. simpl.
      unfold registered. rewrite Hf. simpl.
      rewrite own_property_drop_key_other by exact Hne. reflexivity.
Qed.

Lemma registration_deleted_witness :
  let sv := {| platform := Sample.offline []; http := fun _ => Unreachable; API_URL := None |} in
  let saved := snd (saveClientData "acme.example" (JS.Object [("client_id", JS.Str "c1")])
                      sv (boot (initial_world 0))) in
  fst (loadClientData "acme.example" sv saved) = Ret (JS.Object [("client_id", JS.Str "c1")]) /\
  fst (loadClientData "acme.example" sv (snd (deleteClientData "acme.example" sv saved)))
    = Ret JS.Null.
Proof.
  intros sv saved. split; [reflexivity|].
  destruct (registration_deleted "acme.example" sv saved) as (m' & Hdel & _ & _ & _ & _ & Hload & _).
  { right. right. eexists. reflexivity. }
  { intros H. simpl in H. repeat (destruct H as [H|H]; [discriminate|]). exact H. }
  rewrite Hdel. simpl. rewrite (Hload sv). reflexivity.
Defined.

(** *** Dynamic registration *)

Lemma fetch_spec (c : HttpCall) sv m :
  fetch c sv m =
  (match http sv c with
   | Unreachable => Throw (Platform NetworkFailure)
   | Replied r => Ret r
   end, record_call c m).
Proof. unfold fetch. prun. destruct (http sv c); reflexivity. Qed.

Lemma registerClient_spec (domain : string) (appName : option string) sv m
    (cfg : JS.value) (w1 : World) (registrationEndpoint : JS.value) :
  discoverOpenIDConfiguration domain (platform sv) (world m) = (Ret cfg, w1) ->
  JS.get_field cfg "registration_endpoint" = Some registrationEndpoint ->
  registerClient domain appName sv m =
  if JS.truthy registrationEndpoint then
    let call := registration_call registrationEndpoint appName in
    let m2 := record_call call (record_line "Registering OAuth client..." (set_world w1 m)) in
    match answer "Client registration failed: " (http sv call) with
    | Ret clientData => (Ret clientData, snd (saveClientData domain clientData sv m2))
    | Throw e => (Throw e, m2)
    end
  else (Throw (JsError "OAuth provider does not support dynamic client registration"),
        set_world w1 m).
Proof.
  intros Hd Hep. unfold registerClient, field, json_of, answer, registration_call.
  unfold and_then at 1. unfold lift at 1. rewrite Hd.
  unfold and_then at 1. rewrite Hep. unfold pure at 1.
  destruct (JS.truthy registrationEndpoint); [|reflexivity].
  cbn [negb]. unfold and_then at 1. unfold print at 1, update at 1.
  unfold and_then at 1. rewrite fetch_spec.
  destruct (http sv _) as [|response]; [reflexivity|].
  destruct (ok response); [|reflexivity]. cbn [negb].
  destruct (body_json response) as [clientData|]; [|reflexivity].
  unfold and_then, pure. rewrite saveClientData_spec. reflexivity.
Qed.

(** When the discovered configuration has no registration endpoint (or an
    empty one), [registerClient] throws its own error before any request
    is made, prints nothing and leaves the clients file alone. *)
Theorem registration_unsupported (domain : string) (appName : option string)
    (sv : Services) (m : Machine) (cfg : JS.value) (w1 : World) :
  discoverOpenIDConfiguration domain (platform sv) (world m) = (Ret cfg, w1) ->
  cfg <> JS.Null -> cfg <> JS.Undefined ->
  field_ok cfg "registration_endpoint" = false ->
  registerClient domain appName sv m =
    (Throw (JsError "OAuth provider does not support dynamic client registration"),
     set_world w1 m) /\
  calls (set_world w1 m) = calls m /\
  clients_file (set_world w1 m) = clients_file m /\
  console (set_world w1 m) = console m.
Proof.
  intros Hd Hnull Hundef Hep. split; [|repeat split].
  unfold field_ok in Hep.
  destruct (JS.get_field cfg "registration_endpoint") as [ep|] eqn:Hfield.
  - rewrite (registerClient_spec domain appName sv m cfg w1 ep Hd Hfield), Hep. reflexivity.
  - destruct cfg; simpl in Hfield; try discriminate; contradiction.
Qed.

Lemma registration_unsupported_witness :
  let env := Sample.online [] in
  let sv := {| platform := env; http := fun _ => Unreachable; API_URL := None |} in
  exists m',
    registerClient "acme.example" None sv (boot (initial_world 0)) =
      (Throw (JsError "OAuth provider does not support dynamic client registration"), m') /\
    calls m' = [].
Proof.
  intros env sv.
  destruct (registration_unsupported "acme.example" None sv (boot (initial_world 0))
              Sample.provider_document
              (snd (discoverOpenIDConfiguration "acme.example" env (initial_world 0)))
              eq_refl) as (Hrun & Hcalls & _).
  - discriminate.
  - discriminate.
  - reflexivity.
  - eexists. split; [exact Hrun|exact Hcalls].
Defined.



(** When discovery falls back to the conventional configuration,
    [registerClient] does not report registration as unsupported: it posts
    the registration request to [https://D/oauth/register]. *)
Theorem registration_after_fallback (domain : string) (appName : option string)
    (sv : Services) (m : Machine) :
  fresh_entry domain (world m) = None ->
  discovery_document (http_get (platform sv) (wellKnownUrl domain)) = None ->
  exists r m',
    registerClient domain appName sv m = (r, m') /\
    calls m' = calls m ++
      [registration_call (JS.Str ("https://" +:+ domain +:+ "/oauth/register")) appName] /\
    r = answer "Client registration failed: "
          (http sv (registration_call
                      (JS.Str ("https://" +:+ domain +:+ "/oauth/register")) appName)).
Proof.
  intros Hfresh Hdoc.
  pose proof (discover_spec domain (platform sv) (world m)) as Hd. rewrite Hfresh in Hd.
  pose proof (refetch_spec domain (platform sv) (world m)) as Hr. rewrite Hdoc in Hr.
  destruct Hr as [err Hr]. rewrite Hr in Hd.
  rewrite (registerClient_spec domain appName sv m _ _
             (JS.Str ("https://" +:+ domain +:+ "/oauth/register")) Hd eq_refl).
  assert (Htruthy : JS.truthy (JS.Str ("https://" +:+ domain +:+ "/oauth/register")) = true)
    by reflexivity.
  rewrite Htruthy. cbv zeta.
  destruct (answer _ _) as [clientData|e] eqn:Hanswer.
  - rewrite saveClientData_spec. eexists; eexists. split; [reflexivity|].
    split; [|reflexivity]. cbn [snd]. destruct (assign _ _ _); reflexivity.
  - eexists; eexists. split; [reflexivity|]. split; reflexivity.
Qed.

Lemma registration_after_fallback_witness :
  let sv := sample_services (Sample.offline [])
              (Replied {| status := 403; body_text := "forbidden"; body_json := None |}) in
  fst (registerClient "acme.example" None sv (boot (initial_world 0))) =
    Throw (JsError "Client registration failed: forbidden").
Proof.
  intros sv.
  destruct (registration_after_fallback "acme.example" None sv (boot (initial_world 0))
              eq_refl eq_refl) as (r & m' & Hrun & _ & Hr).
  rewrite Hrun. exact Hr.
Defined.

(** *** User information *)




(** *** The task API client *)

Lemma header_app (a b : list (string * string)) (k : string) :
  header (a ++ b) k =
  match header a k with Some v => Some v | None => header b k end.
Proof.
  unfold header. induction a as [|[k' v'] a IH]; simpl; [reflexivity|].
  destruct (String.eqb k' k); [reflexivity|exact IH].
Qed.

Lemma header_set_header (hs : list (string * string)) (k v k' : string) :
  header (set_header hs k v) k' =
  if String.eqb k k' then Some v else header hs k'.
Proof.
  unfold header. induction hs as [|[k0 v0] hs IH]; simpl.
  - destruct (String.eqb k k'); reflexivity.
  - destruct (String.eqb_spec k0 k) as [->|Hne]; simpl.
    + destruct (String.eqb k k'); reflexivity.
    + rewrite IH. destruct (String.eqb_spec k0 k') as [->|Hne'].
      * destruct (String.eqb_spec k k') as [->|_]; [contradiction|reflexivity].
      * reflexivity.
Qed.

(** In [{ ...base, ...more }] a name of [more] has the value [more] gives
    it last; any other name keeps the value of [base]. *)
Lemma header_spread (base more : list (string * string)) (k : string) :
  header (spread base more) k =
  match last_header more k with Some v => Some v | None => header base k end.
Proof.
  unfold spread, last_header. revert base.
  induction more as [|[k0 v0] more IH]; intros base; simpl; [reflexivity|].
  rewrite IH, header_set_header.
  pose proof (header_app (rev more) [(k0, v0)] k) as Happ. unfold header in Happ.
  rewrite Happ. simpl.
  destruct (searchParams_get (rev more) k); [reflexivity|].
  destruct (String.eqb k0 k); reflexivity.
Qed.

Lemma apiRequest_spec (endpoint : string) (options : ApiOptions) sv m :
  apiRequest endpoint options sv m =
  match loadToken (platform sv) (world m) with
  | (Ret (Some t), w1) =>
      let c := {| call_method :=
                    if JS.truthy_string (method options)
                    then default "" (method options) else "GET";
                  call_url := JS.Str (API_BASE_URL sv +:+ "/api" +:+ endpoint);
                  call_headers := spread (default_headers t) (headers options);
                  call_body :=
                    if JS.truthy (body options) then Some (body options) else None |} in
      (answer "API request failed: " (http sv c), record_call c (set_world w1 m))
  | (Ret None, w1) => (Throw not_authenticated, set_world w1 m)
  | (Throw e, w1) => (Throw e, set_world w1 m)
  end.
Proof.
  unfold apiRequest, answer, json_of, default_headers.
  unfold and_then at 1. unfold lift at 1.
  destruct (loadToken (platform sv) (world m)) as [[[t|]|e] w1]; try reflexivity.
  unfold and_then at 1. unfold services at 1.
  unfold and_then at 1. rewrite fetch_spec.
  destruct (http sv _) as [|response]; [reflexivity|].
  destruct (ok response); [|reflexivity]. cbn [negb].
  destruct (body_json response); reflexivity.
Qed.

(** Without a token that [loadToken] accepts (no token file, one that
    cannot be used, or one whose token has expired) [apiRequest] throws
    [Not authenticated. ...] and sends nothing: no request is made and
    nothing is printed. Afterwards the token file holds no token: an
    expired one has been removed. *)
Theorem api_request_without_token (endpoint : string) (options : ApiOptions)
    (sv : Services) (m : Machine) :
  (forall t, token_file (world m) = File (Some t) -> expired (world m) t = true) ->
  exists m',
    apiRequest endpoint options sv m = (Throw not_authenticated, m') /\
    calls m' = calls m /\ console m' = console m /\
    clients_file m' = clients_file m /\
    (forall t, token_file (world m') <> File (Some t)).
Proof.
  intros Hexpired. rewrite apiRequest_spec.
  destruct (token_file (world m)) as [|[t|]] eqn:Hfile.
  - rewrite (loadToken_unusable _ _ (or_introl Hfile)).
    eexists. split; [reflexivity|]. repeat split.
    intros t. simpl. rewrite Hfile. discriminate.
  - rewrite (loadToken_stored _ _ t Hfile).
    pose proof (Hexpired t eq_refl) as He. unfold expired in He. rewrite He.
    eexists. split; [reflexivity|]. repeat split.
    intros t'. simpl. discriminate.
  - rewrite (loadToken_unusable _ _ (or_intror Hfile)).
    eexists. split; [reflexivity|]. repeat split.
    intros t. simpl. rewrite Hfile. discriminate.
Qed.

Lemma api_request_without_token_witness :
  let sv := sample_services (Sample.offline []) (Sample.reply (JS.Array [])) in
  let saved := snd (saveToken "acme.example" Sample.bearer (Sample.offline []) (initial_world 0)) in
  let run := apiRequest "/tasks" no_options sv (boot (set_clock 3601000 saved)) in
  fst run = Throw not_authenticated /\ calls (snd run) = [] /\
  token_file (world (snd run)) = NoFile.
Proof.
  intros sv saved run.
  destruct (api_request_without_token "/tasks" no_options sv (boot (set_clock 3601000 saved)))
    as (m' & Hrun & Hcalls & _ & _ & Hfile).
  { intros t Ht. injection Ht as <-. reflexivity. }
  assert (Hpair : run = (Throw not_authenticated, m')) by exact Hrun.
  assert (Hgone : token_file (world (snd run)) = NoFile) by reflexivity.
  rewrite Hpair in Hgone |- *. simpl. split; [reflexivity|]. split; [exact Hcalls|].
  exact Hgone.
Defined.

(** With a token that has not expired, [apiRequest] makes exactly one
    request, to [<API_BASE_URL>/api<endpoint>], and its outcome is read off
    the answer: the JSON body of a 2xx answer, or an error
    [API request failed: <body>]. Every header the caller passes replaces
    the default of the same name, [Authorization] included; the other
    defaults, [Authorization: Bearer <access token>] and
    [Content-Type: application/json], are sent as they are. The method is
    [GET] when the caller names none, and there is no body when the caller
    passes none. The token file is left as it was. *)
Theorem api_request_with_token (endpoint : string) (options : ApiOptions)
    (sv : Services) (m : Machine) (t : StoredToken) :
  token_file (world m) = File (Some t) ->
  expired (world m) t = false ->
  exists c,
    apiRequest endpoint options sv m =
      (answer "API request failed: " (http sv c), record_call c m) /\
    call_url c = JS.Str (API_BASE_URL sv +:+ "/api" +:+ endpoint) /\
    (forall k,
        header (call_headers c) k =
        match last_header (headers options) k with
        | Some v => Some v
        | None => header (default_headers t) k
        end) /\
    (method options = None -> call_method c = "GET") /\
    (body options = JS.Undefined -> call_body c = None).
Proof.
  intros Hfile Hvalid. rewrite apiRequest_spec, (loadToken_stored _ _ t Hfile).
  unfold expired in Hvalid. rewrite Hvalid. cbv zeta.
  replace (set_world (world m) m) with m by (destruct m; reflexivity).
  eexists. split; [reflexivity|].
  split; [reflexivity|]. split; [intros k; apply header_spread|].
  split; [intros ->; reflexivity|intros ->; reflexivity].
Qed.

Lemma api_request_with_token_witness :
  let sv := sample_services (Sample.offline []) (Sample.reply (JS.Array [])) in
  let saved := snd (saveToken "acme.example" Sample.bearer (Sample.offline []) (initial_world 0)) in
  let run := tasks_list sv (boot saved) in
  fst run = Ret (JS.Array []) /\
  exists c, calls (snd run) = [c] /\
            call_url c = JS.Str "http://localhost:3001/api/tasks" /\
            call_method c = "GET" /\
            header (call_headers c) "Authorization" = Some "Bearer at_1".
Proof.
  intros sv saved run.
  destruct (api_request_with_token "/tasks" no_options sv (boot saved) (Sample.stored 0)
              eq_refl eq_refl) as (c & Hrun & Hurl & Hheaders & Hmethod & _).
  assert (Hpair : run = (answer "API request failed: " (http sv c), record_call c (boot saved)))
    by exact Hrun.
  rewrite Hpair. simpl. split; [reflexivity|].
  exists c. split; [reflexivity|]. split; [exact Hurl|].
  split; [exact (Hmethod eq_refl)|]. rewrite Hheaders. reflexivity.
Defined.

(** The five operations of [api.tasks] pass no headers of their own, so
    with a token that has not expired each of them makes one request that
    carries exactly the default headers, the stored access token as bearer
    credential among them, to a path under [<API_BASE_URL>/api/tasks]:
    [list] and [get] with [GET] and no body, [create] with [POST],
    [update] with [PATCH], both with the data as body, [delete] with
    [DELETE] and no body. *)
Theorem task_requests (id : string) (data : JS.value)
    (sv : Services) (m : Machine) (t : StoredToken) :
  token_file (world m) = File (Some t) ->
  expired (world m) t = false ->
  JS.truthy data = true ->
  Forall (fun '(operation, verb, path, payload) =>
            exists c,
              operation sv m =
                (answer "API request failed: " (http sv c), record_call c m) /\
              call_method c = verb /\
              call_url c = JS.Str (API_BASE_URL sv +:+ "/api/tasks" +:+ path) /\
              call_body c = payload /\
              call_headers c = default_headers t)
    [ (tasks_list, "GET", "", None);
      (tasks_get id, "GET", "/" +:+ id, None);
      (tasks_create data, "POST", "", Some data);
      (tasks_update id data, "PATCH", "/" +:+ id, Some data);
      (tasks_delete id, "DELETE", "/" +:+ id, None) ].
Proof.
  intros Hfile Hvalid Hdata.
  assert (Hload : loadToken (platform sv) (world m) = (Ret (Some t), world m)).
  { rewrite (loadToken_stored _ _ t Hfile). unfold expired in Hvalid.
    rewrite Hvalid. reflexivity. }
  assert (Hm : set_world (world m) m = m) by (destruct m; reflexivity).
  repeat constructor;
    unfold tasks_list, tasks_get, tasks_create, tasks_update, tasks_delete;
    rewrite apiRequest_spec, Hload, Hm; cbv zeta;
    eexists; (split; [reflexivity|]); cbn [call_method call_url call_body call_headers
      method body headers no_options JS.truthy_string JS.truthy default negb String.eqb
      Ascii.eqb Bool.eqb spread fold_left];
    rewrite ?Hdata; repeat split; reflexivity.
Qed.

Lemma task_requests_witness :
  let sv := sample_services (Sample.offline []) (Sample.reply JS.Null) in
  let saved := snd (saveToken "acme.example" Sample.bearer (Sample.offline []) (initial_world 0)) in
  exists c,
    calls (snd (tasks_delete "t1" sv (boot saved))) = [c] /\
    call_method c = "DELETE" /\
    call_url c = JS.Str "http://localhost:3001/api/tasks/t1" /\
    call_headers c = [("Authorization", "Bearer at_1"); ("Content-Type", "application/json")].
Proof.
  intros sv saved.
  pose proof (task_requests "t1" (JS.Object []) sv (boot saved) (Sample.stored 0)
                eq_refl eq_refl eq_refl) as Hall.
  apply Forall_forall with (x := (tasks_delete "t1", "DELETE", "/t1", None)) in Hall.
  - destruct Hall as (c & Hrun & Hverb & Hurl & _ & Hheaders).
    exists c. rewrite Hrun. split; [reflexivity|].
    split; [exact Hverb|]. split; [exact Hurl|exact Hheaders].
  - apply list_elem_of_In. simpl. tauto.
Defined.
